(** * Voice dictation and message dispatch of the feedback chat widget

    A shallow embedding of the handlers of the current revision of
    [src/App.js] (the last of the revisions kept in that file, the one that
    carries the [_seenFinalTexts] deduplication set): the speech-recognition
    callbacks [onstart], [onresult], [onerror], [onend], the button handlers
    [handleVoiceInput], [handleCancelListening], [handleSendMessage], and the
    zone-id effect.  React state and refs become fields of one record [App];
    every handler is a function from [App] to the new [App] and the list of
    calls it makes on its collaborators (the recognition stream, the timer,
    the HTTP endpoint, the permission helper). *)

From Stdlib Require Import Ascii NArith Lia.
From stdpp Require Import gmap strings list.

(** ** JavaScript strings

    Strings are sequences of code units; the model keeps the code units below
    256, for which [trim] and [toLowerCase] are written out. *)
Module Js.

(** White space and line terminators removed by [String.prototype.trim]:
    TAB, LF, VT, FF, CR, SPACE and NBSP. *)
Definition is_ws (c : ascii) : bool :=
  match N_of_ascii c with
  | 9%N | 10%N | 11%N | 12%N | 13%N | 32%N | 160%N => true
  | _ => false
  end.

Definition is_empty (s : string) : bool :=
  match s with "" => true | _ => false end.

Fixpoint trimStart (s : string) : string :=
  match s with
  | "" => ""
  | String c s' => if is_ws c then trimStart s' else s
  end.

Fixpoint trimEnd (s : string) : string :=
  match s with
  | "" => ""
  | String c s' =>
      let t := trimEnd s' in
      if is_ws c && is_empty t then "" else String c t
  end.

Definition trim (s : string) : string := trimEnd (trimStart s).

(** [toLowerCase] on one code unit: A-Z and the Latin-1 capitals
    (all of 192..222 but the multiplication sign 215) move up by 32. *)
Definition lower_unit (c : ascii) : ascii :=
  let n := N_of_ascii c in
  if ((65 <=? n) && (n <=? 90))%N
     || ((192 <=? n) && (n <=? 222) && negb (n =? 215))%N
  then ascii_of_N (n + 32) else c.

Fixpoint toLowerCase (s : string) : string :=
  match s with
  | "" => ""
  | String c s' => String (lower_unit c) (toLowerCase s')
  end.

(** [parts.join(sep)] *)
Fixpoint join (sep : string) (parts : list string) : string :=
  match parts with
  | [] => ""
  | [p] => p
  | p :: rest => p +:+ sep +:+ join sep rest
  end.

(** [s.slice(0, n)] *)
Fixpoint slice0 (n : nat) (s : string) : string :=
  match n, s with
  | S n', String c s' => String c (slice0 n' s')
  | _, _ => ""
  end.

(** [l.slice(-n)] on an array *)
Definition slice_last {A} (n : nat) (l : list A) : list A :=
  drop (length l - n) l.

(** [a || b] and [a && b] on strings: the empty string is the falsy one. *)
Definition or (a b : string) : string := if is_empty a then b else a.
Definition and (a b : string) : string := if is_empty a then a else b.

End Js.

(** ** Data model *)

(** One entry of [event.results]: the transcript of its first alternative
    ([None] when [result[0]] is missing) and the [isFinal] flag. *)
Record SpeechRecognitionResult := {
  transcript : option string;
  isFinal : bool;
}.

(** The recognition object held in [recognitionRef.current], with the two
    fields the handlers attach to it.  [_seenFinalTexts] is [None] until
    [onresult] creates the set. *)
Record Recognition := {
  _isManualStart : bool;
  _seenFinalTexts : option (gset string);
}.

Inductive MessageType := user | assistant | error.

(** A chat message.  [text] is [None] when the value stored there is not a
    string (the reply is whatever the server put in [data.response]). *)
Record Message := {
  type : MessageType;
  text : option string;
}.

Record HistoryEntry := {
  role : string;
  entry_text : string;
}.

(** Body of the POST to [/api/feedback]. *)
Record FeedbackRequest := {
  message : string;
  zoneId : string;
  acId : string;
  sessionId : string;
  history : list HistoryEntry;
}.

(** Calls a handler makes on its collaborators. *)
Inductive Effect :=
| RecognitionStart
| RecognitionStop
| SetTimeoutSend (textToSend : string)
| Fetch (body : FeedbackRequest)
| RequestMicrophonePermission.

(** React state ([useState]) and refs ([useRef]) of the component.  The
    pairs [messages]/[messagesRef] and [isLoading]/[isLoadingRef] are always
    written together by the handlers and are kept as one field each. *)
Record App := {
  messagesRef : list Message;
  inputValue : string;
  isListening : bool;
  isLoadingRef : bool;
  speechError : string;
  selectedAcId : string;
  zoneIdFromUrl : string;
  isZoneContext : bool;
  recognitionRef : option Recognition;
  finalTranscriptRef : string;
  shouldSendOnStopRef : bool;
  inputValueRef : string;
  selectedAcIdRef : string;
  sessionIdRef : string;
}.

(** Field updates. *)
Definition set_messagesRef (v : list Message) (s : App) : App :=
  {| messagesRef := v; inputValue := inputValue s; isListening := isListening s;
     isLoadingRef := isLoadingRef s; speechError := speechError s;
     selectedAcId := selectedAcId s; zoneIdFromUrl := zoneIdFromUrl s;
     isZoneContext := isZoneContext s; recognitionRef := recognitionRef s;
     finalTranscriptRef := finalTranscriptRef s;
     shouldSendOnStopRef := shouldSendOnStopRef s;
     inputValueRef := inputValueRef s; selectedAcIdRef := selectedAcIdRef s;
     sessionIdRef := sessionIdRef s |}.

Definition setInputValue (v : string) (s : App) : App :=
  {| messagesRef := messagesRef s; inputValue := v; isListening := isListening s;
     isLoadingRef := isLoadingRef s; speechError := speechError s;
     selectedAcId := selectedAcId s; zoneIdFromUrl := zoneIdFromUrl s;
     isZoneContext := isZoneContext s; recognitionRef := recognitionRef s;
     finalTranscriptRef := finalTranscriptRef s;
     shouldSendOnStopRef := shouldSendOnStopRef s;
     inputValueRef := inputValueRef s; selectedAcIdRef := selectedAcIdRef s;
     sessionIdRef := sessionIdRef s |}.

Definition setIsListening (v : bool) (s : App) : App :=
  {| messagesRef := messagesRef s; inputValue := inputValue s; isListening := v;
     isLoadingRef := isLoadingRef s; speechError := speechError s;
     selectedAcId := selectedAcId s; zoneIdFromUrl := zoneIdFromUrl s;
     isZoneContext := isZoneContext s; recognitionRef := recognitionRef s;
     finalTranscriptRef := finalTranscriptRef s;
     shouldSendOnStopRef := shouldSendOnStopRef s;
     inputValueRef := inputValueRef s; selectedAcIdRef := selectedAcIdRef s;
     sessionIdRef := sessionIdRef s |}.

Definition set_isLoadingRef (v : bool) (s : App) : App :=
  {| messagesRef := messagesRef s; inputValue := inputValue s;
     isListening := isListening s;
     isLoadingRef := v; speechError := speechError s;
     selectedAcId := selectedAcId s; zoneIdFromUrl := zoneIdFromUrl s;
     isZoneContext := isZoneContext s; recognitionRef := recognitionRef s;
     finalTranscriptRef := finalTranscriptRef s;
     shouldSendOnStopRef := shouldSendOnStopRef s;
     inputValueRef := inputValueRef s; selectedAcIdRef := selectedAcIdRef s;
     sessionIdRef := sessionIdRef s |}.

Definition setSpeechError (v : string) (s : App) : App :=
  {| messagesRef := messagesRef s; inputValue := inputValue s;
     isListening := isListening s;
     isLoadingRef := isLoadingRef s; speechError := v;
     selectedAcId := selectedAcId s; zoneIdFromUrl := zoneIdFromUrl s;
     isZoneContext := isZoneContext s; recognitionRef := recognitionRef s;
     finalTranscriptRef := finalTranscriptRef s;
     shouldSendOnStopRef := shouldSendOnStopRef s;
     inputValueRef := inputValueRef s; selectedAcIdRef := selectedAcIdRef s;
     sessionIdRef := sessionIdRef s |}.

Definition setSelectedAcId (v : string) (s : App) : App :=
  {| messagesRef := messagesRef s; inputValue := inputValue s;
     isListening := isListening s;
     isLoadingRef := isLoadingRef s; speechError := speechError s;
     selectedAcId := v; zoneIdFromUrl := zoneIdFromUrl s;
     isZoneContext := isZoneContext s; recognitionRef := recognitionRef s;
     finalTranscriptRef := finalTranscriptRef s;
     shouldSendOnStopRef := shouldSendOnStopRef s;
     inputValueRef := inputValueRef s; selectedAcIdRef := selectedAcIdRef s;
     sessionIdRef := sessionIdRef s |}.

Definition setZoneIdFromUrl (v : string) (s : App) : App :=
  {| messagesRef := messagesRef s; inputValue := inputValue s;
     isListening := isListening s;
     isLoadingRef := isLoadingRef s; speechError := speechError s;
     selectedAcId := selectedAcId s; zoneIdFromUrl := v;
     isZoneContext := isZoneContext s; recognitionRef := recognitionRef s;
     finalTranscriptRef := finalTranscriptRef s;
     shouldSendOnStopRef := shouldSendOnStopRef s;
     inputValueRef := inputValueRef s; selectedAcIdRef := selectedAcIdRef s;
     sessionIdRef := sessionIdRef s |}.

Definition setIsZoneContext (v : bool) (s : App) : App :=
  {| messagesRef := messagesRef s; inputValue := inputValue s;
     isListening := isListening s;
     isLoadingRef := isLoadingRef s; speechError := speechError s;
     selectedAcId := selectedAcId s; zoneIdFromUrl := zoneIdFromUrl s;
     isZoneContext := v; recognitionRef := recognitionRef s;
     finalTranscriptRef := finalTranscriptRef s;
     shouldSendOnStopRef := shouldSendOnStopRef s;
     inputValueRef := inputValueRef s; selectedAcIdRef := selectedAcIdRef s;
     sessionIdRef := sessionIdRef s |}.

Definition set_recognitionRef (v : option Recognition) (s : App) : App :=
  {| messagesRef := messagesRef s; inputValue := inputValue s;
     isListening := isListening s;
     isLoadingRef := isLoadingRef s; speechError := speechError s;
     selectedAcId := selectedAcId s; zoneIdFromUrl := zoneIdFromUrl s;
     isZoneContext := isZoneContext s; recognitionRef := v;
     finalTranscriptRef := finalTranscriptRef s;
     shouldSendOnStopRef := shouldSendOnStopRef s;
     inputValueRef := inputValueRef s; selectedAcIdRef := selectedAcIdRef s;
     sessionIdRef := sessionIdRef s |}.

Definition set_finalTranscriptRef (v : string) (s : App) : App :=
  {| messagesRef := messagesRef s; inputValue := inputValue s;
     isListening := isListening s;
     isLoadingRef := isLoadingRef s; speechError := speechError s;
     selectedAcId := selectedAcId s; zoneIdFromUrl := zoneIdFromUrl s;
     isZoneContext := isZoneContext s; recognitionRef := recognitionRef s;
     finalTranscriptRef := v;
     shouldSendOnStopRef := shouldSendOnStopRef s;
     inputValueRef := inputValueRef s; selectedAcIdRef := selectedAcIdRef s;
     sessionIdRef := sessionIdRef s |}.

Definition set_shouldSendOnStopRef (v : bool) (s : App) : App :=
  {| messagesRef := messagesRef s; inputValue := inputValue s;
     isListening := isListening s;
     isLoadingRef := isLoadingRef s; speechError := speechError s;
     selectedAcId := selectedAcId s; zoneIdFromUrl := zoneIdFromUrl s;
     isZoneContext := isZoneContext s; recognitionRef := recognitionRef s;
     finalTranscriptRef := finalTranscriptRef s;
     shouldSendOnStopRef := v;
     inputValueRef := inputValueRef s; selectedAcIdRef := selectedAcIdRef s;
     sessionIdRef := sessionIdRef s |}.

Definition set_inputValueRef (v : string) (s : App) : App :=
  {| messagesRef := messagesRef s; inputValue := inputValue s;
     isListening := isListening s;
     isLoadingRef := isLoadingRef s; speechError := speechError s;
     selectedAcId := selectedAcId s; zoneIdFromUrl := zoneIdFromUrl s;
     isZoneContext := isZoneContext s; recognitionRef := recognitionRef s;
     finalTranscriptRef := finalTranscriptRef s;
     shouldSendOnStopRef := shouldSendOnStopRef s;
     inputValueRef := v; selectedAcIdRef := selectedAcIdRef s;
     sessionIdRef := sessionIdRef s |}.

Definition set_selectedAcIdRef (v : string) (s : App) : App :=
  {| messagesRef := messagesRef s; inputValue := inputValue s;
     isListening := isListening s;
     isLoadingRef := isLoadingRef s; speechError := speechError s;
     selectedAcId := selectedAcId s; zoneIdFromUrl := zoneIdFromUrl s;
     isZoneContext := isZoneContext s; recognitionRef := recognitionRef s;
     finalTranscriptRef := finalTranscriptRef s;
     shouldSendOnStopRef := shouldSendOnStopRef s;
     inputValueRef := inputValueRef s; selectedAcIdRef := v;
     sessionIdRef := sessionIdRef s |}.

(** Updates of the fields hung on the recognition object. *)
Definition set_isManualStart (v : bool) (r : Recognition) : Recognition :=
  {| _isManualStart := v; _seenFinalTexts := _seenFinalTexts r |}.

Definition set_seenFinalTexts (v : option (gset string)) (r : Recognition)
  : Recognition :=
  {| _isManualStart := _isManualStart r; _seenFinalTexts := v |}.

(** [if (rec._seenFinalTexts) rec._seenFinalTexts.clear()] *)
Definition clear_seenFinalTexts (r : Recognition) : Recognition :=
  match _seenFinalTexts r with
  | Some _ => set_seenFinalTexts (Some ∅) r
  | None => r
  end.

(** [if (recognitionRef.current) f(recognitionRef.current)] *)
Definition with_recognition (f : Recognition → Recognition) (s : App) : App :=
  match recognitionRef s with
  | Some r => set_recognitionRef (Some (f r)) s
  | None => s
  end.

(** The fingerprints seen so far; a set that was never created has seen
    nothing. *)
Definition seenFinalTexts (s : App) : gset string :=
  match recognitionRef s with
  | Some r => default ∅ (_seenFinalTexts r)
  | None => ∅
  end.

(** ** Transcript reconciliation: [recognition.onresult] *)

(** The three variables the [for] loop of [onresult] updates. *)
Record LoopVars := {
  seen : gset string;
  finalTextParts : list string;
  interimText : string;
}.

(** [(result[0]?.transcript || '').trim()] *)
Definition chunk_of (result : SpeechRecognitionResult) : string :=
  Js.trim (Js.or (default "" (transcript result)) "").

(** One iteration of the loop body. *)
Definition onresult_body (v : LoopVars) (result : SpeechRecognitionResult)
  : LoopVars :=
  let chunk := chunk_of result in
  if Js.is_empty chunk then v
  else if isFinal result then
    let chunkKey := Js.toLowerCase chunk in
    if decide (chunkKey ∈ seen v) then v
    else {| seen := {[chunkKey]} ∪ seen v;
            finalTextParts := finalTextParts v ++ [chunk];
            interimText := interimText v |}
  else {| seen := seen v;
          finalTextParts := finalTextParts v;
          interimText :=
            interimText v +:+ (if Js.is_empty (interimText v) then "" else " ")
                        +:+ chunk |}.

(** [for (let i = 0; i < event.results.length; i++) ...] *)
Fixpoint onresult_loop (results : list SpeechRecognitionResult) (v : LoopVars)
  : LoopVars :=
  match results with
  | [] => v
  | result :: rest => onresult_loop rest (onresult_body v result)
  end.

(** The loop started from the session's set with empty accumulators. *)
Definition onresult_vars (results : list SpeechRecognitionResult) (s : App)
  : LoopVars :=
  onresult_loop results
    {| seen := seenFinalTexts s; finalTextParts := []; interimText := "" |}.

(** The value of [finalTranscriptRef.current] after the rebuild step. *)
Definition rebuilt_final (v : LoopVars) (s : App) : string :=
  if (0 <? length (finalTextParts v))%nat
  then Js.trim (Js.join " " (finalTextParts v))
  else finalTranscriptRef s.

(** [`${finalTranscriptRef.current} ${interimText}`.trim()] *)
Definition combined_text (v : LoopVars) (s : App) : string :=
  Js.trim (rebuilt_final v s +:+ " " +:+ interimText v).

Definition onresult (results : list SpeechRecognitionResult) (s : App) : App :=
  match recognitionRef s with
  | None => s
  | Some _ =>
      let v := onresult_vars results s in
      let combined := combined_text v s in
      let s1 := with_recognition (set_seenFinalTexts (Some (seen v))) s in
      let s2 := set_finalTranscriptRef (rebuilt_final v s) s1 in
      let s3 :=
        if (0 <? String.length combined)%nat
        then setInputValue combined (set_inputValueRef combined s2)
        else s2 in
      setSpeechError "" s3
  end.

(** ** The other recognition callbacks *)

(** [recognition.onstart]: a manual start resets the transcript and the set. *)
Definition onstart (s : App) : App :=
  match recognitionRef s with
  | Some r =>
      if _isManualStart r
      then with_recognition
             (fun r => clear_seenFinalTexts (set_isManualStart false r))
             (set_finalTranscriptRef "" s)
      else s
  | None => s
  end.

(** The text [onend] hands over when the send flag is set:
    [(final && final.trim()) || (input && input.trim()) || ''] *)
Definition textToSend (s : App) : string :=
  Js.or
    (Js.or (Js.and (finalTranscriptRef s) (Js.trim (finalTranscriptRef s)))
           (Js.and (inputValueRef s) (Js.trim (inputValueRef s))))
    "".

(** Clearing of the transcripts, as both branches of [onend] and
    [handleCancelListening] write it. *)
Definition clear_transcripts (s : App) : App :=
  setInputValue "" (set_inputValueRef "" (set_finalTranscriptRef "" s)).

(** [recognition.onend].  The timer callback is recorded as the effect
    [SetTimeoutSend textToSend]: when it runs it calls
    [sendMessageRef.current(textToSend)]. *)
Definition onend (s : App) : App * list Effect :=
  let s1 := with_recognition (set_isManualStart false) (setIsListening false s) in
  if shouldSendOnStopRef s1 then
    let s2 := set_shouldSendOnStopRef false s1 in
    let t := textToSend s2 in
    let s3 := clear_transcripts s2 in
    if negb (Js.is_empty t) && (0 <? String.length t)%nat
    then (s3, [SetTimeoutSend t])
    else (s3, [])
  else
    let currentText := Js.or (inputValueRef s1) "" in
    if (String.length (Js.trim currentText) =? 0)%nat
    then (clear_transcripts s1, [])
    else (s1, []).

(** [getMicrophonePermissionErrorMessage] of [utils/microphonePermission.js] *)
Definition getMicrophonePermissionErrorMessage (errorType : string) : string :=
  if decide (errorType = "not-allowed" ∨ errorType = "service-not-allowed"
             ∨ errorType = "NotAllowedError")
  then "Microphone permission is required. Please enable microphone access in your browser settings and try again. On mobile: Settings > Browser > Microphone > Allow"
  else "Microphone permission error. Please try again.".

(** [recognition.onerror]; [event_error] is [event.error], [None] when it
    is missing. *)
Definition onerror (event_error : option string) (s : App) : App * list Effect :=
  let err := Js.or (default "" event_error) "unknown" in
  let s1 := setIsListening false s in
  let s2 := with_recognition (set_isManualStart false) s1 in
  (* Never auto-send after an error *)
  let s3 := set_shouldSendOnStopRef false s2 in
  if decide (err = "network") then
    (setSpeechError
       "Network error. Please check your internet connection and try again." s3,
     [])
  else if decide (err = "not-allowed" ∨ err = "service-not-allowed") then
    (setSpeechError
       "Microphone permission denied. Requesting permission again..." s3,
     [RequestMicrophonePermission])
  else if decide (err = "no-speech") then
    (setSpeechError
       "No speech detected. Please try again and speak clearly." s3, [])
  else
    (setSpeechError
       ("Voice recognition error: " +:+ err
          +:+ ". Please try again or type your message.") s3, []).

(** [recognition.onerror] as the earlier revision in [unnamed/part_001] has
    it: the same messages, without the lines that reset [_isManualStart] and
    the send flag, and without the permission request. *)
Definition onerror_part_001 (event_error : option string) (s : App) : App :=
  let err := Js.or (default "" event_error) "unknown" in
  let s1 := setIsListening false s in
  if decide (err = "network") then
    setSpeechError
      "Network error. Please check your internet connection and try again." s1
  else if decide (err = "not-allowed" ∨ err = "service-not-allowed") then
    setSpeechError
      "Please give your browser microphone permission to use voice input." s1
  else if decide (err = "no-speech") then
    setSpeechError "No speech detected. Please try again and speak clearly." s1
  else
    setSpeechError
      ("Voice recognition error: " +:+ err
         +:+ ". Please try again or type your message.") s1.

(** The [.then] of the permission request made by [onerror].  The helper
    resolves to a boolean, so neither [result.granted] nor
    [result.permanentlyBlocked] is set and the last branch runs. *)
Definition onerror_permission_settled (err : string) (s : App) : App :=
  setSpeechError (getMicrophonePermissionErrorMessage err) s.

(** ** Button handlers *)

(** What [recognition.start()] did: it returned, or it threw (with a
    permission error or another one). *)
Inductive StartOutcome := Started | StartThrew (permission : bool).

(** [handleVoiceInput], on the two paths on which the browser's support
    is not asked for or is missing: with a recognition object, and without
    one in a browser that has no [SpeechRecognition] constructor, where
    [unsupported] is the message shown (it depends on the user agent).  In
    the [catch] branch a permission error leaves [_isManualStart] raised
    until the permission request has settled. *)
Definition handleVoiceInput (unsupported : string) (o : StartOutcome) (s : App)
  : App * list Effect :=
  match recognitionRef s with
  | None => (setSpeechError unsupported s, [])
  | Some _ =>
      if isListening s then
        (* User clicked mic again to stop -> auto-send when stopped *)
        (set_shouldSendOnStopRef true s, [RecognitionStop])
      else
        let s1 := setSpeechError "" s in
        let s2 := clear_transcripts s1 in
        let s3 := set_shouldSendOnStopRef false s2 in
        let s4 :=
          with_recognition
            (fun r => clear_seenFinalTexts (set_isManualStart true r)) s3 in
        match o with
        | Started => (setIsListening true s4, [RecognitionStart])
        | StartThrew permission =>
            let s5 := setIsListening false s4 in
            if permission then
              (setSpeechError
                 "Microphone permission denied. Requesting permission again..."
                 s5,
               [RecognitionStart; RequestMicrophonePermission])
            else
              (with_recognition (set_isManualStart false)
                 (setSpeechError
                    "Could not start voice recognition. Please try again or type your message."
                    s5),
               [RecognitionStart])
        end
  end.

(** The rest of the [catch] branch of [handleVoiceInput] for a permission
    error, after the permission request resolved to [granted]: the message,
    then [_isManualStart] is lowered. *)
Definition handleVoiceInput_permission_settled (granted : bool) (s : App) : App :=
  let s1 :=
    if granted
    then setSpeechError
           "Permission granted! Please click the microphone button again to use voice input."
           s
    else setSpeechError (getMicrophonePermissionErrorMessage "not-allowed") s in
  with_recognition (set_isManualStart false) s1.

(** [handleVoiceInput] in a browser that has a [SpeechRecognition]
    constructor: without a recognition object it asks for the microphone
    permission, with one it is as above. *)
Definition handleVoiceInput_supported (o : StartOutcome) (s : App)
  : App * list Effect :=
  match recognitionRef s with
  | None =>
      (setSpeechError "Requesting microphone permission..." s,
       [RequestMicrophonePermission])
  | Some _ => handleVoiceInput "" o s
  end.

(** The rest of that branch, after the permission request resolved to
    [granted]. *)
Definition handleVoiceInput_supported_settled (granted : bool) (s : App) : App :=
  if granted
  then setSpeechError
         "Permission granted! Please refresh the page to enable voice input." s
  else setSpeechError (getMicrophonePermissionErrorMessage "not-allowed") s.

(** [handleCancelListening] *)
Definition handleCancelListening (s : App) : App * list Effect :=
  match recognitionRef s with
  | None => (s, [])
  | Some _ =>
      let s1 := set_shouldSendOnStopRef false s in
      let s2 := clear_transcripts s1 in
      let s3 := with_recognition clear_seenFinalTexts s2 in
      (s3, [RecognitionStop])
  end.

(** ** Message dispatch: [handleSendMessage] *)

(** The [filter] predicate of the history window:
    [m && typeof m.text === 'string' && m.text.trim().length > 0] *)
Definition has_text (m : Message) : bool :=
  match text m with
  | Some t => (0 <? String.length (Js.trim t))%nat
  | None => false
  end.

(** The [map] of the history window. *)
Definition to_entry (m : Message) : HistoryEntry :=
  {| role := match type m with assistant => "assistant" | _ => "user" end;
     entry_text := Js.slice0 500 (default "" (text m)) |}.

Definition historyWindow (nextMessages : list Message) : list HistoryEntry :=
  to_entry <$> filter (fun m => has_text m = true) (Js.slice_last 10 nextMessages).

(** [handleSendMessage] up to the [fetch] call.  [overrideText] is
    [Some t] when the argument is a string and [None] otherwise (a click
    passes the event object). *)
Definition message_of (overrideText : option string) (s : App) : string :=
  let raw := match overrideText with
             | Some t => t
             | None => inputValueRef s
             end in
  Js.trim (Js.or raw "").

Definition handleSendMessage (overrideText : option string) (s : App)
  : App * list Effect :=
  let message := message_of overrideText s in
  if Js.is_empty message || isLoadingRef s then (s, [])
  else
    let acId := selectedAcIdRef s in
    if Js.is_empty acId then
      (setSpeechError "Please select an AC ID before sending your message." s,
       [])
    else
      let userMessage := {| type := user; text := Some message |} in
      let nextMessages := messagesRef s ++ [userMessage] in
      let s1 := set_messagesRef nextMessages s in
      let s2 := set_inputValueRef "" (setInputValue "" s1) in
      let s3 := set_isLoadingRef true s2 in
      (s3,
       [Fetch {| message := message;
                 zoneId := Js.or (zoneIdFromUrl s) acId;
                 acId := acId;
                 sessionId := sessionIdRef s;
                 history := historyWindow nextMessages |}]).

(** How the request ended: a reply (with the warning of a degraded reply
    generator, if any) or a failure with its message. *)
Inductive FetchOutcome :=
| Replied (response : option string) (llm_warning : option string)
| Failed (error_message : string).

(** The rest of [handleSendMessage], after the [await]. *)
Definition handleSendMessage_settled (o : FetchOutcome) (s : App) : App :=
  let s1 :=
    match o with
    | Replied response llm_warning =>
        let s' := match llm_warning with
                  | Some w =>
                      setSpeechError
                        (Js.or w "Gemini is limited right now. Using fallback mode.") s
                  | None => s
                  end in
        set_messagesRef
          (messagesRef s' ++ [{| type := assistant; text := response |}]) s'
    | Failed m =>
        set_messagesRef
          (messagesRef s ++ [{| type := error; text := Some ("Error: " +:+ m) |}]) s
    end in
  set_isLoadingRef false s1.

(** ** Mounting *)

(** The initial values given to [useState] and [useRef].  [supported] tells
    whether the browser has a [SpeechRecognition] constructor, in which case
    the initialising effect creates the recognition object. *)
Definition initial (supported : bool) (sid : string) : App :=
  {| messagesRef := [];
     inputValue := "";
     isListening := false;
     isLoadingRef := false;
     speechError := "";
     selectedAcId := "AC-001";
     zoneIdFromUrl := "";
     isZoneContext := false;
     recognitionRef :=
       if supported
       then Some {| _isManualStart := false; _seenFinalTexts := None |}
       else None;
     finalTranscriptRef := "";
     shouldSendOnStopRef := false;
     inputValueRef := "";
     selectedAcIdRef := "AC-001";
     sessionIdRef := sid |}.

(** The effect that reads the zone id of the URL; [zidFromQuery] and
    [zidFromPath] are the two candidates it extracts. *)
Definition zone_effect (zidFromQuery zidFromPath : string) (s : App) : App :=
  let zid := Js.trim (Js.or (Js.or zidFromQuery zidFromPath) "") in
  if Js.is_empty zid then setIsZoneContext false s
  else
    let cleaned := Js.slice0 64 zid in
    setSpeechError ""
      (setSelectedAcId cleaned (setIsZoneContext true (setZoneIdFromUrl cleaned s))).

(** The effects that mirror state into refs after a render. *)
Definition sync_refs (s : App) : App :=
  set_selectedAcIdRef (selectedAcId s) (set_inputValueRef (inputValue s) s).

Definition mount (supported : bool) (sid zidFromQuery zidFromPath : string) : App :=
  sync_refs (zone_effect zidFromQuery zidFromPath (initial supported sid)).

(** ** Sessions as input sequences *)

(** What the user, the recognition stream, the timer and the network can
    deliver to the component.  A click on the microphone is [ClickMic] in a
    browser without a [SpeechRecognition] constructor and
    [ClickMicSupported] in one that has it; with a recognition object the
    two are the same. *)
Inductive Input :=
| ClickMic (unsupported : string) (o : StartOutcome)
| ClickCancel
| ClickSend
| TypeText (v : string)
| OnStart
| OnResult (results : list SpeechRecognitionResult)
| OnError (event_error : option string)
| OnEnd
| TimerFired (textToSend : string)
| FetchSettled (o : FetchOutcome)
| PermissionSettled (err : string)
| StartPermissionSettled (granted : bool)
| ClickMicSupported (o : StartOutcome)
| SupportedPermissionSettled (granted : bool).

Definition step (s : App) (i : Input) : App * list Effect :=
  match i with
  | ClickMic unsupported o => handleVoiceInput unsupported o s
  | ClickCancel => handleCancelListening s
  | ClickSend => handleSendMessage None s
  | TypeText v => (sync_refs (setInputValue v s), [])
  | OnStart => (onstart s, [])
  | OnResult results => (onresult results s, [])
  | OnError e => onerror e s
  | OnEnd => onend s
  | TimerFired t => handleSendMessage (Some t) s
  | FetchSettled o => (handleSendMessage_settled o s, [])
  | PermissionSettled err => (onerror_permission_settled err s, [])
  | StartPermissionSettled granted =>
      (handleVoiceInput_permission_settled granted s, [])
  | ClickMicSupported o => handleVoiceInput_supported o s
  | SupportedPermissionSettled granted =>
      (handleVoiceInput_supported_settled granted s, [])
  end.

Fixpoint run (s : App) (inputs : list Input) : App * list Effect :=
  match inputs with
  | [] => (s, [])
  | i :: rest =>
      let '(s1, e1) := step s i in
      let '(s2, e2) := run s1 rest in
      (s2, e1 ++ e2)
  end.

(** The texts handed to the dispatcher by [onend]'s timers. *)
Definition dispatches (effects : list Effect) : list string :=
  omap (fun e => match e with SetTimeoutSend t => Some t | _ => None end) effects.

(** [stopAndSend()] is the listening branch of [handleVoiceInput]. *)
Definition is_stopAndSend (s : App) (i : Input) : bool :=
  match i, recognitionRef s with
  | ClickMic _ _, Some _ => isListening s
  | ClickMicSupported _, Some _ => isListening s
  | _, _ => false
  end.

Fixpoint never_stopAndSend (s : App) (inputs : list Input) : Prop :=
  match inputs with
  | [] => True
  | i :: rest =>
      is_stopAndSend s i = false ∧ never_stopAndSend (fst (step s i)) rest
  end.

(** A final segment and an interim segment carrying [t]. *)
Definition final_segment (t : string) : SpeechRecognitionResult :=
  {| transcript := Some t; isFinal := true |}.
Definition interim_segment (t : string) : SpeechRecognitionResult :=
  {| transcript := Some t; isFinal := false |}.

(** A dictation session that has just been started on a fresh page. *)
Definition listening : App :=
  fst (step (mount true "sid" "AC-001" "") (ClickMic "" Started)).

(** ** Notions used in the statements *)

(** Being a final segment, as a decidable predicate for [filter]. *)
Definition is_final (r : SpeechRecognitionResult) : Prop := isFinal r = true.

#[local] Instance is_final_dec r : Decision (is_final r).
Proof. unfold is_final. apply _. Defined.

(** Two states agree on the transcript when they hold the same recognition
    object and the same final text. *)
Definition same_transcript (s s' : App) : Prop :=
  recognitionRef s = recognitionRef s'
  ∧ finalTranscriptRef s = finalTranscriptRef s'.

(** Events processed one after the other. *)
Definition process (events : list (list SpeechRecognitionResult)) (s : App) : App :=
  foldl (fun s results => onresult results s) s events.

(** The fingerprints of the final segments of an event that carry text. *)
Fixpoint final_keys (results : list SpeechRecognitionResult) : list string :=
  match results with
  | [] => []
  | r :: rest =>
      if isFinal r && negb (Js.is_empty (chunk_of r))
      then Js.toLowerCase (chunk_of r) :: final_keys rest
      else final_keys rest
  end.

(** ** Notions used in the further properties *)

(** The trimmed texts of the interim segments of an event that carry
    text, in the order of the event. *)
Fixpoint interim_chunks (results : list SpeechRecognitionResult) : list string :=
  match results with
  | [] => []
  | r :: rest =>
      if negb (isFinal r) && negb (Js.is_empty (chunk_of r))
      then chunk_of r :: interim_chunks rest
      else interim_chunks rest
  end.

(** The trimmed texts of the final segments of an event that carry text,
    in the order of the event. *)
Fixpoint final_chunks (results : list SpeechRecognitionResult) : list string :=
  match results with
  | [] => []
  | r :: rest =>
      if isFinal r && negb (Js.is_empty (chunk_of r))
      then chunk_of r :: final_chunks rest
      else final_chunks rest
  end.

(** A string [trim] leaves as it is. *)
Definition trimmed (t : string) : Prop := Js.trim t = t.

(** The ref that mirrors the input box holds what the input box holds. *)
Definition mirrored (s : App) : Prop := inputValueRef s = inputValue s.

(** The requests among the calls a handler made. *)
Definition fetches (effects : list Effect) : list FeedbackRequest :=
  omap (fun e => match e with Fetch body => Some body | _ => None end) effects.

(** The transcript fields, the flag and the set are as a fresh session
    needs them. *)
Definition transcript_clear (s : App) : Prop :=
  finalTranscriptRef s = "" ∧ inputValue s = "" ∧ inputValueRef s = ""
  ∧ seenFinalTexts s = ∅ ∧ shouldSendOnStopRef s = false.

(** [_isManualStart] of the recognition object, [false] without one. *)
Definition manual_start_pending (s : App) : bool :=
  match recognitionRef s with
  | Some r => _isManualStart r
  | None => false
  end.

Definition is_ClickMic (i : Input) : bool :=
  match i with
  | ClickMic _ _ => true
  | ClickMicSupported _ => true
  | _ => false
  end.

Definition is_FetchSettled (i : Input) : bool :=
  match i with FetchSettled _ => true | _ => false end.

(** ** What the rendered page lets the user do

    The chat area is rendered only in a zone context; the overlay with
    Cancel and Send only while listening; the text area and the microphone
    button are disabled while a request is in flight, and the send button
    also while the input box is blank.  Inputs that do not come from a
    control are not restricted here. *)
Definition rendered (s : App) (i : Input) : bool :=
  match i with
  | ClickMic _ _ =>
      isZoneContext s && (isListening s || negb (isLoadingRef s))
  | ClickMicSupported _ =>
      isZoneContext s && (isListening s || negb (isLoadingRef s))
  | ClickCancel => isZoneContext s && isListening s
  | ClickSend =>
      isZoneContext s
      && negb (Js.is_empty (Js.trim (inputValue s)) || isLoadingRef s)
  | TypeText _ => isZoneContext s && negb (isLoadingRef s)
  | _ => true
  end.

(** Removal of the first occurrence of a timer from the pending ones. *)
Fixpoint remove_first (t : string) (timers : list string) : list string :=
  match timers with
  | [] => []
  | u :: rest => if decide (t = u) then rest else u :: remove_first t rest
  end.

(** An input sequence the page allows: every click and keystroke goes to a
    control that is rendered and enabled, and a timer runs only if [onend]
    has set it and it has not run yet. *)
Fixpoint page_allows (s : App) (timers : list string) (inputs : list Input)
  : Prop :=
  match inputs with
  | [] => True
  | i :: rest =>
      match i with
      | TimerFired t => t ∈ timers
      | _ => rendered s i = true
      end
      ∧ page_allows (fst (step s i))
          (match i with
           | TimerFired t => remove_first t timers
           | _ => timers
           end ++ dispatches (snd (step s i)))
          rest
  end.

(** ** The zone id of the URL *)

(** [path.replace(/^\/+/, '')] *)
Fixpoint strip_leading_slashes (path : string) : string :=
  match path with
  | String "/" rest => strip_leading_slashes rest
  | _ => path
  end.

(** [t.split('/')[0]] *)
Fixpoint before_slash (t : string) : string :=
  match t with
  | "" => ""
  | String c rest =>
      if Ascii.eqb c "/" then "" else String c (before_slash rest)
  end.

(** [zidFromQuery]: [(params.get('zoneId') || '').trim()], where
    [param] is what [params.get('zoneId')] returns. *)
Definition zidFromQuery (param : option string) : string :=
  Js.trim (Js.or (default "" param) "").

(** [zidFromPath], from [window.location.pathname]. *)
Definition zidFromPath (pathname : string) : string :=
  let path := Js.trim (Js.or pathname "/") in
  let isRoot := bool_decide (path = "/") || bool_decide (path = "") in
  if negb isRoot
  then Js.trim (before_slash (strip_leading_slashes path))
  else "".

(** The zone effect on the parts of the URL it reads. *)
Definition read_zone (param : option string) (pathname : string) (s : App) : App :=
  zone_effect (zidFromQuery param) (zidFromPath pathname) s.

(** The character [c] occurs in [t]. *)
Fixpoint occurs (c : ascii) (t : string) : bool :=
  match t with
  | "" => false
  | String d rest => Ascii.eqb c d || occurs c rest
  end.

(** A string of [n] slashes. *)
Fixpoint slashes (n : nat) : string :=
  match n with
  | 0 => ""
  | S n' => String "/" (slashes n')
  end.

(** ** The session id *)

(** [window.localStorage]: what it holds, and whether reading or writing
    it throws (storage blocked, quota exceeded). *)
Record LocalStorage := {
  items : gmap string string;
  getItem_throws : bool;
  setItem_throws : bool;
}.

Definition set_sessionIdRef (v : string) (s : App) : App :=
  {| messagesRef := messagesRef s; inputValue := inputValue s;
     isListening := isListening s;
     isLoadingRef := isLoadingRef s; speechError := speechError s;
     selectedAcId := selectedAcId s; zoneIdFromUrl := zoneIdFromUrl s;
     isZoneContext := isZoneContext s; recognitionRef := recognitionRef s;
     finalTranscriptRef := finalTranscriptRef s;
     shouldSendOnStopRef := shouldSendOnStopRef s;
     inputValueRef := inputValueRef s; selectedAcIdRef := selectedAcIdRef s;
     sessionIdRef := v |}.

(** The effect that sets [sessionIdRef].  [newId] is the id generated in
    the [try] block and [fallbackId] the one generated in the [catch]
    block. *)
Definition sessionId_effect (newId fallbackId : string) (storage : LocalStorage)
  (s : App) : App * LocalStorage :=
  let key := "lt_feedback_session_id" in
  if getItem_throws storage then (set_sessionIdRef fallbackId s, storage)
  else
    let existing := items storage !! key in
    if negb (Js.is_empty (Js.and (default "" existing)
                            (Js.trim (default "" existing))))
    then (set_sessionIdRef (Js.trim (default "" existing)) s, storage)
    else if setItem_throws storage
    then (set_sessionIdRef fallbackId s, storage)
    else (set_sessionIdRef newId s,
          {| items := <[key := newId]> (items storage);
             getItem_throws := getItem_throws storage;
             setItem_throws := setItem_throws storage |}).

(** ** The zone display name *)

(** The own properties of the [zoneMap] object literal. *)
Definition zoneMap : gmap string string :=
  list_to_map [("1", "Zone 1"); ("2", "Zone 2"); ("3", "Conference Room");
               ("AC-001", "AC-001"); ("AC-002", "AC-002");
               ("AC-003", "AC-003")].

(** The properties an object literal inherits from [Object.prototype];
    a lookup of one of them on [zoneMap] gives a function or an object. *)
Definition object_prototype_members : list string :=
  ["constructor"; "__defineGetter__"; "__defineSetter__"; "hasOwnProperty";
   "__lookupGetter__"; "__lookupSetter__"; "isPrototypeOf";
   "propertyIsEnumerable"; "toString"; "valueOf"; "__proto__";
   "toLocaleString"].

(** What [getZoneDisplayName] returns: a string, or the inherited member
    of the given name. *)
Inductive DisplayName :=
| Text (t : string)
| Inherited (member : string).

(** [getZoneDisplayName], for a string argument. *)
Definition getZoneDisplayName (zoneId : string) : DisplayName :=
  if Js.is_empty zoneId then Text zoneId
  else match zoneMap !! zoneId with
       | Some name => Text (Js.or name zoneId)
       | None =>
           if decide (zoneId ∈ object_prototype_members)
           then Inherited zoneId
           else Text zoneId
       end.

(** ** The first revision of [onresult]

    [recognition.onresult] as the revisions without the deduplication set
    have it ([src/App.js] lines 43-58, [unnamed/part_001] lines 113-128):
    it reads the results from [event.resultIndex] on, appends every final
    transcript to the final text and sets the input box only. *)
Record LoopVars_first := {
  finalTranscript_first : string;
  interimTranscript : string;
}.

Definition onresult_first_body (v : LoopVars_first)
  (result : SpeechRecognitionResult) : LoopVars_first :=
  let chunk := Js.or (default "" (transcript result)) "" in
  if isFinal result
  then {| finalTranscript_first :=
            Js.trim (finalTranscript_first v +:+ " " +:+ chunk);
          interimTranscript := interimTranscript v |}
  else {| finalTranscript_first := finalTranscript_first v;
          interimTranscript := interimTranscript v +:+ chunk |}.

Definition onresult_first (resultIndex : nat)
  (results : list SpeechRecognitionResult) (s : App) : App :=
  let v := foldl onresult_first_body
             {| finalTranscript_first := finalTranscriptRef s;
                interimTranscript := "" |}
             (drop resultIndex results) in
  let s1 := set_finalTranscriptRef (finalTranscript_first v) s in
  let combined :=
    Js.trim (finalTranscript_first v +:+ " " +:+ interimTranscript v) in
  let s2 := if (0 <? String.length combined)%nat
            then setInputValue combined s1 else s1 in
  setSpeechError "" s2.

(** [a] is a prefix of [b]. *)
Fixpoint starts_with (a b : string) : bool :=
  match a, b with
  | "", _ => true
  | String x a', String y b' => Ascii.eqb x y && starts_with a' b'
  | _, _ => false
  end.

(** ** Notions used for cancelling *)



(** * Proofs *)

Ltac case_handlers :=
  repeat match goal with
    | |- context [match ?x with _ => _ end] => destruct x eqn:?; cbn in *
    end.

(** ** Facts about [trim] *)

Lemma trimEnd_append_space (s : string) :
  Js.trimEnd (s +:+ " ") = Js.trimEnd s.
Proof.
  induction s as [|c s IH]; [reflexivity|].
  change (String c s +:+ " ") with (String c (s +:+ " ")).
  cbn [Js.trimEnd]. by rewrite IH.
Qed.

Lemma trim_append_space (s : string) : Js.trim (s +:+ " ") = Js.trim s.
Proof.
  unfold Js.trim. induction s as [|c s IH]; [reflexivity|].
  change (String c s +:+ " ") with (String c (s +:+ " ")).
  cbn [Js.trimStart]. destruct (Js.is_ws c); [exact IH|].
  change (String c (s +:+ " ")) with (String c s +:+ " ").
  apply trimEnd_append_space.
Qed.

(** ** Facts about the loop of [onresult] *)

(** Segments whose trimmed transcript is empty leave the loop variables
    alone. *)
Lemma onresult_body_blank v r : chunk_of r = "" → onresult_body v r = v.
Proof. intros H. unfold onresult_body. by rewrite H. Qed.

Lemma onresult_loop_blank results v :
  Forall (fun r => chunk_of r = "") results → onresult_loop results v = v.
Proof.
  intros H. revert v. induction H as [|r rest Hr _ IH]; intros v; [done|].
  cbn. rewrite onresult_body_blank by done. apply IH.
Qed.

(** The set and the accepted parts are computed from the final segments
    alone. *)
Lemma onresult_loop_finals results : ∀ v w,
  seen v = seen w → finalTextParts v = finalTextParts w →
  seen (onresult_loop results v) = seen (onresult_loop (filter is_final results) w)
  ∧ finalTextParts (onresult_loop results v)
    = finalTextParts (onresult_loop (filter is_final results) w).
Proof.
  induction results as [|r rest IH]; intros v w Hs Hp; [done|].
  cbn [onresult_loop]. destruct (decide (is_final r)) as [Hf|Hf].
  - rewrite filter_cons_True by done. cbn [onresult_loop].
    unfold is_final in Hf.
    apply IH; unfold onresult_body;
      destruct (Js.is_empty (chunk_of r)); try done; rewrite Hf, Hs;
      destruct (decide _); cbn; congruence.
  - rewrite filter_cons_False by done. unfold is_final in Hf.
    apply IH; unfold onresult_body;
      destruct (Js.is_empty (chunk_of r)); try done;
      destruct (isFinal r); done.
Qed.

(** The loop reads the state only through the set it starts from. *)
Lemma onresult_vars_ext results s s' :
  seenFinalTexts s = seenFinalTexts s' →
  onresult_vars results s = onresult_vars results s'.
Proof. unfold onresult_vars. by intros ->. Qed.

Lemma onresult_vars_finals results s :
  seen (onresult_vars results s) = seen (onresult_vars (filter is_final results) s)
  ∧ finalTextParts (onresult_vars results s)
    = finalTextParts (onresult_vars (filter is_final results) s).
Proof. by apply onresult_loop_finals. Qed.

(** Projections of the state [onresult] returns. *)
Lemma onresult_final results s :
  is_Some (recognitionRef s) →
  finalTranscriptRef (onresult results s)
  = rebuilt_final (onresult_vars results s) s.
Proof.
  intros [r Hr]. unfold onresult. rewrite Hr.
  by destruct (0 <? String.length _)%nat.
Qed.

Lemma onresult_seen results s :
  is_Some (recognitionRef s) →
  seenFinalTexts (onresult results s) = seen (onresult_vars results s).
Proof.
  intros [r Hr]. unfold onresult. rewrite Hr. unfold seenFinalTexts, with_recognition.
  rewrite Hr. by destruct (0 <? String.length _)%nat.
Qed.

Lemma onresult_recognition results s :
  is_Some (recognitionRef s) → is_Some (recognitionRef (onresult results s)).
Proof.
  intros [r Hr]. unfold onresult, with_recognition. rewrite Hr.
  by destruct (0 <? String.length _)%nat.
Qed.

Lemma onresult_no_recognition results s :
  recognitionRef s = None → onresult results s = s.
Proof. intros H. unfold onresult. by rewrite H. Qed.

Lemma onresult_inputValue results s :
  is_Some (recognitionRef s) →
  inputValue (onresult results s)
  = let combined := combined_text (onresult_vars results s) s in
    if (0 <? String.length combined)%nat then combined else inputValue s.
Proof.
  intros [r Hr]. unfold onresult, with_recognition. rewrite Hr. cbn zeta.
  by destruct (0 <? String.length _)%nat.
Qed.

Lemma onresult_inputValueRef results s :
  is_Some (recognitionRef s) →
  inputValueRef (onresult results s)
  = let combined := combined_text (onresult_vars results s) s in
    if (0 <? String.length combined)%nat then combined else inputValueRef s.
Proof.
  intros [r Hr]. unfold onresult, with_recognition. rewrite Hr. cbn zeta.
  by destruct (0 <? String.length _)%nat.
Qed.

Lemma length_zero_empty (t : string) : String.length t = 0 ↔ t = "".
Proof. by destruct t. Qed.

Lemma same_transcript_seen s s' :
  same_transcript s s' → seenFinalTexts s = seenFinalTexts s'.
Proof. intros [Hr _]. unfold seenFinalTexts. by rewrite Hr. Qed.

Lemma onresult_recognitionRef results s r :
  recognitionRef s = Some r →
  recognitionRef (onresult results s)
  = Some (set_seenFinalTexts (Some (seen (onresult_vars results s))) r).
Proof.
  intros Hr. unfold onresult, with_recognition. rewrite Hr.
  by destruct (0 <? String.length _)%nat.
Qed.

Lemma onresult_same_transcript results s s' :
  same_transcript s s' →
  same_transcript (onresult results s) (onresult results s').
Proof.
  intros Hst. pose proof (same_transcript_seen _ _ Hst) as Hseen.
  destruct Hst as [Hr Hf].
  destruct (recognitionRef s) as [r|] eqn:Er.
  - symmetry in Hr. split.
    + rewrite (onresult_recognitionRef _ _ _ Er), (onresult_recognitionRef _ _ _ Hr).
      by rewrite (onresult_vars_ext results s s' Hseen).
    + rewrite !onresult_final by (rewrite ?Er, ?Hr; eauto).
      unfold rebuilt_final.
      by rewrite Hf, (onresult_vars_ext results s s' Hseen).
  - rewrite !onresult_no_recognition by congruence. split; congruence.
Qed.

Lemma onresult_finals_same_transcript results s :
  same_transcript (onresult results s) (onresult (filter is_final results) s).
Proof.
  destruct (onresult_vars_finals results s) as [Hs Hp].
  destruct (recognitionRef s) as [r|] eqn:Er.
  - split.
    + rewrite !(onresult_recognitionRef _ _ _ Er). by rewrite Hs.
    + rewrite !onresult_final by (rewrite Er; eauto).
      unfold rebuilt_final. by rewrite Hp.
  - rewrite !onresult_no_recognition by done. by split.
Qed.

Lemma process_same_transcript events : ∀ s s',
  same_transcript s s' → same_transcript (process events s) (process events s').
Proof.
  induction events as [|e rest IH]; intros s s' H; [done|].
  cbn. apply IH. by apply onresult_same_transcript.
Qed.

Lemma combined_text_same_transcript results s s' :
  same_transcript s s' →
  combined_text (onresult_vars results s) s
  = combined_text (onresult_vars results s') s'.
Proof.
  intros Hst. pose proof (same_transcript_seen _ _ Hst) as Hseen.
  destruct Hst as [_ Hf]. unfold combined_text, rebuilt_final.
  by rewrite Hf, (onresult_vars_ext results s s' Hseen).
Qed.

(** Every fingerprint of the event is in the set when the loop ends, and
    the set only grows. *)
Lemma onresult_loop_seen_mono results : ∀ v,
  seen v ⊆ seen (onresult_loop results v).
Proof.
  induction results as [|r rest IH]; intros v; [done|].
  cbn [onresult_loop]. etrans; [|apply IH].
  unfold onresult_body. destruct (Js.is_empty _); [done|].
  destruct (isFinal r); [|done]. destruct (decide _); [done|]. cbn. set_solver.
Qed.

Lemma onresult_loop_seen_keys results : ∀ v k,
  k ∈ final_keys results → k ∈ seen (onresult_loop results v).
Proof.
  induction results as [|r rest IH]; intros v k Hk.
  - by apply elem_of_nil in Hk.
  - cbn [onresult_loop]. cbn [final_keys] in Hk.
    destruct (isFinal r) eqn:Ef, (Js.is_empty (chunk_of r)) eqn:Ee;
      cbn in Hk; try (by apply IH).
    apply elem_of_cons in Hk as [->|Hk]; [|by apply IH].
    apply onresult_loop_seen_mono. unfold onresult_body. rewrite Ee, Ef.
    destruct (decide _); [done|]. cbn. set_solver.
Qed.

(** An event all of whose fingerprints are known accepts nothing. *)
Lemma onresult_loop_all_seen results : ∀ v,
  (∀ k, k ∈ final_keys results → k ∈ seen v) →
  seen (onresult_loop results v) = seen v
  ∧ finalTextParts (onresult_loop results v) = finalTextParts v.
Proof.
  induction results as [|r rest IH]; intros v Hk; [done|].
  cbn [onresult_loop]. cbn [final_keys] in Hk. unfold onresult_body.
  destruct (isFinal r) eqn:Ef, (Js.is_empty (chunk_of r)) eqn:Ee; cbn in Hk.
  - by apply IH.
  - destruct (decide _) as [|Hn].
    + apply IH. intros k Hin. apply Hk, elem_of_cons. by right.
    + exfalso. apply Hn, Hk, elem_of_cons. by left.
  - by apply IH.
  - destruct (IH {| seen := seen v; finalTextParts := finalTextParts v;
                    interimText := interimText v +:+
                      (if Js.is_empty (interimText v) then "" else " ")
                      +:+ chunk_of r |}) as [H1 H2]; [done|]. done.
Qed.

(** Pure redelivery: an event whose final segments were all accepted
    before (in any casing) leaves the final text as it was. *)
Lemma redelivery_keeps_finalText results s :
  is_Some (recognitionRef s) →
  (∀ k, k ∈ final_keys results → k ∈ seenFinalTexts s) →
  finalTranscriptRef (onresult results s) = finalTranscriptRef s.
Proof.
  intros Hr Hk. rewrite onresult_final by done. unfold rebuilt_final, onresult_vars.
  destruct (onresult_loop_all_seen results
              {| seen := seenFinalTexts s; finalTextParts := []; interimText := "" |}
              Hk) as [_ ->]. done.
Qed.

(** Feeding the same event twice changes nothing the second time. *)
Lemma onresult_twice_finalText results s :
  finalTranscriptRef (onresult results (onresult results s))
  = finalTranscriptRef (onresult results s).
Proof.
  destruct (recognitionRef s) as [r|] eqn:Er.
  - assert (is_Some (recognitionRef s)) as Hs by (rewrite Er; eauto).
    apply redelivery_keeps_finalText; [by apply onresult_recognition|].
    intros k Hk. rewrite onresult_seen by done.
    by apply onresult_loop_seen_keys.
  - by rewrite !(onresult_no_recognition results s Er).
Qed.

(** When an event brings a new final segment, the final text is rebuilt
    from the parts accepted in that event; what it held before is not
    read. *)
Lemma rebuild_forgets_previous_final results s previous :
  is_Some (recognitionRef s) →
  finalTextParts (onresult_vars results s) ≠ [] →
  finalTranscriptRef (onresult results (set_finalTranscriptRef previous s))
  = Js.trim (Js.join " " (finalTextParts (onresult_vars results s))).
Proof.
  intros Hr Hp. rewrite onresult_final by done.
  unfold rebuilt_final.
  replace (onresult_vars results (set_finalTranscriptRef previous s))
    with (onresult_vars results s) by done.
  destruct (finalTextParts (onresult_vars results s)); done.
Qed.

(** ** Properties of the transcript reconciler *)

(** C1 (code defect).  Order preservation asks that a final segment accepted
    in an earlier event stays in the final text when a later event accepts a
    new one.  [onresult] rebuilds the final text from the parts accepted in
    the current event only: after "turn it up" and then "turn it up" with
    "please" the final text is "please", and after "hello" and then
    "world" it is "world". *)
Theorem rebuild_drops_earlier_finals :
  finalTranscriptRef
    (process [[final_segment "turn it up"];
              [final_segment "turn it up"; final_segment "please"]] listening)
  = "please"
  ∧ finalTranscriptRef
      (process [[final_segment "hello"]; [final_segment "world"]] listening)
    = "world".
Proof. split; vm_compute; reflexivity. Qed.

(** C5 (code defect).  The same final text fed in two events should be in
    the final text exactly once, in the casing of its first acceptance.  When
    the second event also brings a new final segment the rebuild keeps only
    the new one: after "Turn it up" and then "turn it up" with "please" the
    final text and the display are "please", and "Turn it up" is in neither
    any more. *)
Theorem redelivered_final_lost_with_new_final :
  let s := process [[final_segment "Turn it up"];
                    [final_segment "turn it up"; final_segment "please"]]
             listening in
  finalTranscriptRef (process [[final_segment "Turn it up"]] listening)
  = "Turn it up"
  ∧ finalTranscriptRef s = "please"
  ∧ inputValue s = "please".
Proof. repeat split; vm_compute; reflexivity. Qed.

(** C6.  Interim segments never reach the final text: the final text and
    the deduplication set after an event are those the event gives with its
    interim segments removed, and this stays so over every later sequence of
    events.  The interim text of an event goes to the display of that event,
    behind the final text.  The display of a later event either does not
    depend on the earlier interim text or is the display left unchanged. *)
Theorem interim_text_never_enters_finalText
  (results later : list SpeechRecognitionResult)
  (events : list (list SpeechRecognitionResult)) (s : App) :
  let heard := onresult results s in
  let finals_only := onresult (filter is_final results) s in
  finalTranscriptRef heard = finalTranscriptRef finals_only
  ∧ seenFinalTexts heard = seenFinalTexts finals_only
  ∧ finalTranscriptRef (process events heard)
    = finalTranscriptRef (process events finals_only)
  ∧ (inputValue heard
     = Js.trim (finalTranscriptRef heard +:+ " "
                  +:+ interimText (onresult_vars results s))
     ∨ inputValue heard = inputValue s)
  ∧ (inputValue (onresult later heard) = inputValue (onresult later finals_only)
     ∨ inputValue (onresult later heard) = inputValue heard).
Proof.
  intros heard finals_only.
  pose proof (onresult_finals_same_transcript results s) as Hst.
  fold heard finals_only in Hst.
  split; [apply Hst|]. split; [by apply same_transcript_seen|].
  split; [by apply process_same_transcript|].
  split.
  { subst heard. destruct (recognitionRef s) as [r|] eqn:Er.
    - assert (is_Some (recognitionRef s)) as Hs by (rewrite Er; eauto).
      rewrite onresult_inputValue, onresult_final by done. cbn zeta.
      destruct (0 <? _)%nat; auto.
    - right. by rewrite onresult_no_recognition. }
  destruct (recognitionRef heard) as [r|] eqn:Er.
  - assert (is_Some (recognitionRef heard)) as H1 by (rewrite Er; eauto).
    assert (is_Some (recognitionRef finals_only)) as H2.
    { destruct Hst as [<- _]. done. }
    rewrite !onresult_inputValue by done. cbn zeta.
    rewrite <- (combined_text_same_transcript later _ _ Hst).
    destruct (0 <? _)%nat; auto.
  - right. by rewrite onresult_no_recognition.
Qed.

(** C10.  An event whose combined final-plus-interim text is empty leaves
    the display as it was; so does an event without segments, or with blank
    segments only, while no final text is held; and no event turns a
    non-empty display into the empty string. *)
Theorem blank_event_keeps_display
  (results : list SpeechRecognitionResult) (s : App) :
  (combined_text (onresult_vars results s) s = "" →
     inputValue (onresult results s) = inputValue s
     ∧ inputValueRef (onresult results s) = inputValueRef s)
  ∧ (Forall (fun r => chunk_of r = "") results →
     Js.trim (finalTranscriptRef s) = "" →
     inputValue (onresult results s) = inputValue s
     ∧ inputValueRef (onresult results s) = inputValueRef s)
  ∧ (inputValue s ≠ "" → inputValue (onresult results s) ≠ "").
Proof.
  assert (combined_text (onresult_vars results s) s = "" →
          inputValue (onresult results s) = inputValue s
          ∧ inputValueRef (onresult results s) = inputValueRef s) as Hblank.
  { intros Hc. destruct (recognitionRef s) as [r|] eqn:Er.
    - rewrite onresult_inputValue, onresult_inputValueRef by (rewrite Er; eauto).
      cbn zeta. by rewrite Hc.
    - by rewrite onresult_no_recognition. }
  split; [exact Hblank|]. split.
  - intros Hall Hf. apply Hblank.
    unfold combined_text, rebuilt_final, onresult_vars.
    rewrite onresult_loop_blank by done. cbn.
    by rewrite trim_append_space.
  - intros Hne. destruct (recognitionRef s) as [r|] eqn:Er.
    + rewrite onresult_inputValue by (rewrite Er; eauto). cbn zeta.
      destruct (0 <? _)%nat eqn:El; [|done].
      apply Nat.ltb_lt in El. intros Hc. rewrite Hc in El. cbn in El. lia.
    + by rewrite onresult_no_recognition.
Qed.

Lemma blank_event_keeps_display_witness :
  let s := fst (run listening [OnResult [interim_segment "too cold"]]) in
  inputValue s = "too cold"
  ∧ inputValue (onresult [] s) = "too cold"
  ∧ inputValue (onresult [interim_segment "  "; final_segment ""] s) = "too cold".
Proof.
  cbv zeta.
  destruct (blank_event_keeps_display []
              (fst (run listening [OnResult [interim_segment "too cold"]])))
    as (H1 & H2 & H3).
  destruct (blank_event_keeps_display [interim_segment "  "; final_segment ""]
              (fst (run listening [OnResult [interim_segment "too cold"]])))
    as (_ & H2' & _).
  split; [vm_compute; reflexivity|]. split.
  - etrans; [apply H1; vm_compute; reflexivity|vm_compute; reflexivity].
  - etrans; [apply H2'|vm_compute; reflexivity].
    + repeat constructor.
    + vm_compute; reflexivity.
Defined.

(** ** Facts about sessions *)

Lemma dispatches_app e1 e2 :
  dispatches (e1 ++ e2) = dispatches e1 ++ dispatches e2.
Proof. apply omap_app. Qed.

Lemma run_app inputs1 : ∀ s inputs2,
  run s (inputs1 ++ inputs2)
  = let '(s1, e1) := run s inputs1 in
    let '(s2, e2) := run s1 inputs2 in
    (s2, e1 ++ e2).
Proof.
  induction inputs1 as [|i rest IH]; intros s inputs2.
  - cbn. by destruct (run s inputs2).
  - cbn. destruct (step s i) as [s1 e1]. rewrite IH.
    destruct (run s1 rest) as [s2 e2]. destruct (run s2 inputs2) as [s3 e3].
    by rewrite app_assoc.
Qed.

(** [onend] with the flag down sets no timer and leaves the flag down. *)
Lemma onend_flag_clear s :
  shouldSendOnStopRef s = false →
  shouldSendOnStopRef (fst (onend s)) = false ∧ snd (onend s) = [].
Proof.
  intros H. unfold onend, with_recognition, clear_transcripts.
  destruct s; cbn in *; subst. case_handlers; done.
Qed.

(** Only [stopAndSend] raises the flag, and only [onend] with the flag up
    sets a timer. *)
Lemma step_keeps_flag_clear s i :
  shouldSendOnStopRef s = false → is_stopAndSend s i = false →
  shouldSendOnStopRef (fst (step s i)) = false
  ∧ dispatches (snd (step s i)) = [].
Proof.
  intros H Hi. destruct i; cbn [step].
  - unfold handleVoiceInput, is_stopAndSend, with_recognition, clear_transcripts in *.
    destruct s; cbn in *; subst. case_handlers; done.
  - unfold handleCancelListening, with_recognition, clear_transcripts.
    destruct s; cbn in *; subst. case_handlers; done.
  - unfold handleSendMessage. destruct s; cbn in *; subst. case_handlers; done.
  - done.
  - unfold onstart, with_recognition. destruct s; cbn in *; subst.
    case_handlers; done.
  - unfold onresult, with_recognition. destruct s; cbn in *; subst.
    case_handlers; done.
  - unfold onerror, with_recognition. destruct s; cbn in *; subst.
    case_handlers; done.
  - destruct (onend_flag_clear s H) as [H1 H2]. by rewrite H1, H2.
  - unfold handleSendMessage. destruct s; cbn in *; subst. case_handlers; done.
  - unfold handleSendMessage_settled. destruct s; cbn in *; subst.
    case_handlers; done.
  - done.
  - unfold handleVoiceInput_permission_settled, with_recognition.
    destruct s; cbn in *; subst. case_handlers; done.
  - unfold handleVoiceInput_supported, handleVoiceInput, is_stopAndSend,
      with_recognition, clear_transcripts in *.
    destruct s; cbn in *; subst. case_handlers; done.
  - unfold handleVoiceInput_supported_settled. cbn. by destruct granted.
Qed.

Lemma no_intent_no_dispatch inputs : ∀ s,
  shouldSendOnStopRef s = false → never_stopAndSend s inputs →
  shouldSendOnStopRef (fst (run s inputs)) = false
  ∧ dispatches (snd (run s inputs)) = [].
Proof.
  induction inputs as [|i rest IH]; intros s H Hn; [done|].
  destruct Hn as [Hi Hn]. cbn [run].
  destruct (step_keeps_flag_clear s i H Hi) as [H1 H2].
  destruct (step s i) as [s1 e1]. cbn [fst snd] in *.
  destruct (IH s1 H1 Hn) as [H3 H4].
  destruct (run s1 rest) as [s2 e2]. cbn [fst snd] in *.
  by rewrite dispatches_app, H2, H4.
Qed.

Lemma never_stopAndSend_app inputs1 : ∀ s inputs2,
  never_stopAndSend s inputs1 →
  never_stopAndSend (fst (run s inputs1)) inputs2 →
  never_stopAndSend s (inputs1 ++ inputs2).
Proof.
  induction inputs1 as [|i rest IH]; intros s inputs2 H1 H2; [done|].
  destruct H1 as [Hi H1]. cbn [run] in H2. split; [done|].
  apply IH; [done|]. destruct (step s i) as [s1 e1]. cbn [fst] in *.
  by destruct (run s1 rest).
Qed.

(** The earlier revision of [onerror] leaves the send flag as it finds
    it. *)
Lemma onerror_part_001_keeps_flag e s :
  shouldSendOnStopRef (onerror_part_001 e s) = shouldSendOnStopRef s.
Proof. unfold onerror_part_001. repeat case_decide; done. Qed.

(** ** Properties of the dictation session *)

(** C7.  In a session started by the microphone button, whatever the user,
    the stream and the network deliver, as long as [stopAndSend] is not
    among it, the stream end hands nothing to the dispatcher: neither that
    end nor any input before it sets the send timer. *)
Theorem natural_end_never_dispatches
  (unsupported : string) (s : App) (inputs : list Input) :
  is_Some (recognitionRef s) → isListening s = false →
  let started := fst (handleVoiceInput unsupported Started s) in
  never_stopAndSend started inputs →
  isListening started = true
  ∧ shouldSendOnStopRef (fst (run started inputs)) = false
  ∧ dispatches (snd (run started (inputs ++ [OnEnd]))) = [].
Proof.
  intros [r Hr] Hl started Hn.
  assert (isListening started = true ∧ shouldSendOnStopRef started = false)
    as [Hs Hf].
  { subst started. unfold handleVoiceInput, with_recognition, clear_transcripts.
    destruct s; cbn in *; subst. done. }
  split; [done|].
  destruct (no_intent_no_dispatch inputs started Hf Hn) as [H1 H2].
  split; [done|].
  rewrite run_app. destruct (run started inputs) as [s1 e1]. cbn [fst snd] in *.
  cbn [run step]. destruct (onend_flag_clear s1 H1) as [_ H3].
  destruct (onend s1) as [s2 e2]. cbn [fst snd] in *. subst e2.
  cbn. by rewrite app_nil_r.
Qed.

Lemma natural_end_never_dispatches_witness :
  let s := mount true "sid" "AC-001" "" in
  let inputs := [OnResult [final_segment "too cold"; interim_segment "in here"];
                 OnStart; OnResult [final_segment "please fix"]] in
  is_Some (recognitionRef s) ∧ isListening s = false
  ∧ never_stopAndSend (fst (handleVoiceInput "" Started s)) inputs
  ∧ inputValue (fst (run (fst (handleVoiceInput "" Started s)) inputs))
    = "please fix"
  ∧ dispatches
      (snd (run (fst (handleVoiceInput "" Started s)) (inputs ++ [OnEnd])))
    = [].
Proof.
  cbv zeta.
  assert (is_Some (recognitionRef (mount true "sid" "AC-001" ""))) as H1
    by (vm_compute; eauto).
  assert (isListening (mount true "sid" "AC-001" "") = false) as H2
    by reflexivity.
  assert (never_stopAndSend
            (fst (handleVoiceInput "" Started (mount true "sid" "AC-001" "")))
            [OnResult [final_segment "too cold"; interim_segment "in here"];
             OnStart; OnResult [final_segment "please fix"]]) as H3
    by (vm_compute; auto).
  split; [exact H1|]. split; [exact H2|]. split; [exact H3|].
  split; [vm_compute; reflexivity|].
  exact (proj2 (proj2 (natural_end_never_dispatches "" _ _ H1 H2 H3))).
Defined.

(** C2, the claim as stated fails: a dictation that is stopped with
    [stopAndSend] before anything was recognised reaches [onend] with the
    send flag up and the dispatcher is not invoked at all. *)
Lemma silent_dictation_dispatches_nothing :
  let s := fst (run listening [ClickMic "" Started]) in
  shouldSendOnStopRef s = true
  ∧ snd (run listening [ClickMic "" Started]) = [RecognitionStop]
  ∧ dispatches (snd (run s [OnEnd])) = []
  ∧ dispatches (snd (run s [OnEnd; OnEnd])) = []
  ∧ length (dispatches (snd (run s [OnEnd; OnEnd]))) ≠ 1.
Proof. repeat split; vm_compute; (reflexivity || discriminate). Qed.

(** C2, amended.  When the stream ends with the send flag up, the
    dispatcher is handed [textToSend] once if that text is not empty and is
    not invoked otherwise; however many more [onend] events follow, and
    whatever else follows short of a new [stopAndSend], nothing more is
    handed over. *)
Theorem auto_send_dispatches_once_if_text (s : App) (inputs : list Input) :
  shouldSendOnStopRef s = true →
  never_stopAndSend (fst (onend s)) inputs →
  dispatches (snd (run s (OnEnd :: inputs)))
  = if Js.is_empty (textToSend s) then [] else [textToSend s].
Proof.
  intros Hf Hn. cbn [run step].
  assert (shouldSendOnStopRef (fst (onend s)) = false
          ∧ dispatches (snd (onend s))
            = if Js.is_empty (textToSend s) then [] else [textToSend s])
    as [H1 H2].
  { unfold onend, with_recognition, clear_transcripts, textToSend.
    destruct s; cbn in *; subst.
    destruct recognitionRef0; cbn;
      destruct (Js.or (Js.or _ _) "") eqn:E; cbn; done. }
  destruct (onend s) as [s1 e1]. cbn [fst snd] in *.
  destruct (no_intent_no_dispatch inputs s1 H1 Hn) as [_ H3].
  destruct (run s1 inputs) as [s2 e2]. cbn [fst snd] in *.
  by rewrite dispatches_app, H2, H3, app_nil_r.
Qed.

Lemma auto_send_dispatches_once_if_text_witness :
  let s := fst (run listening [OnResult [final_segment "too cold"];
                               ClickMic "" Started]) in
  shouldSendOnStopRef s = true
  ∧ never_stopAndSend (fst (onend s)) [OnEnd; OnResult []; OnEnd]
  ∧ dispatches (snd (run s (OnEnd :: [OnEnd; OnResult []; OnEnd])))
    = ["too cold"].
Proof.
  cbv zeta.
  assert (shouldSendOnStopRef
            (fst (run listening [OnResult [final_segment "too cold"];
                                 ClickMic "" Started])) = true) as H1
    by reflexivity.
  assert (never_stopAndSend
            (fst (onend (fst (run listening
                                [OnResult [final_segment "too cold"];
                                 ClickMic "" Started]))))
            [OnEnd; OnResult []; OnEnd]) as H2 by (vm_compute; auto).
  split; [exact H1|]. split; [exact H2|].
  etrans; [exact (auto_send_dispatches_once_if_text _ _ H1 H2)|].
  vm_compute. reflexivity.
Defined.

(** C3.  [onerror] lowers the send flag before it sets the error message:
    the state it returns is the message set on a state whose flag is
    already down.  It sets no timer itself, the [onend] that follows hands
    nothing to the dispatcher, and neither does a later [onend] after the
    permission request settles or after any inputs other than a new
    [stopAndSend]. *)
Theorem error_clears_auto_send_intent (e : option string) (s : App) :
  let after := fst (onerror e s) in
  (∃ msg, after
          = setSpeechError msg
              (set_shouldSendOnStopRef false
                 (with_recognition (set_isManualStart false)
                    (setIsListening false s))))
  ∧ shouldSendOnStopRef after = false
  ∧ dispatches (snd (onerror e s)) = []
  ∧ dispatches (snd (onend after)) = []
  ∧ (∀ err, dispatches (snd (onend (onerror_permission_settled err after))) = [])
  ∧ (∀ inputs, never_stopAndSend after inputs →
               dispatches (snd (run after (inputs ++ [OnEnd]))) = []).
Proof.
  intros after.
  assert (∃ msg, after
          = setSpeechError msg
              (set_shouldSendOnStopRef false
                 (with_recognition (set_isManualStart false)
                    (setIsListening false s)))) as Hmsg.
  { subst after. unfold onerror. repeat case_decide; cbn [fst]; eauto. }
  assert (shouldSendOnStopRef after = false) as Hf.
  { destruct Hmsg as [msg ->]. done. }
  split; [done|]. split; [done|]. split.
  { unfold onerror. repeat case_decide; done. }
  split.
  { destruct (onend_flag_clear after Hf) as [_ ->]. done. }
  split.
  { intros err.
    destruct (onend_flag_clear (onerror_permission_settled err after)) as [_ ->];
      done. }
  intros inputs Hn.
  destruct (no_intent_no_dispatch (inputs ++ [OnEnd]) after Hf) as [_ H]; [|done].
  apply never_stopAndSend_app; [done|]. cbn. done.
Qed.

Lemma error_clears_auto_send_intent_witness :
  let s := fst (run listening [OnResult [final_segment "too cold"];
                               ClickMic "" Started]) in
  shouldSendOnStopRef s = true
  ∧ dispatches (snd (run (fst (onerror (Some "network") s))
                       ([PermissionSettled "network"] ++ [OnEnd]))) = [].
Proof.
  split; [vm_compute; reflexivity|].
  apply (error_clears_auto_send_intent (Some "network")).
  vm_compute. auto.
Defined.

(** ** Properties of message dispatch *)

Lemma slice0_length n : ∀ t, String.length (Js.slice0 n t) ≤ n.
Proof.
  induction n as [|n IH]; intros [|c t]; cbn; try lia.
  specialize (IH t). lia.
Qed.

Lemma slice_last_length {A} n (l : list A) : length (Js.slice_last n l) ≤ n.
Proof. unfold Js.slice_last. rewrite length_drop. lia. Qed.

(** The request [handleSendMessage] makes, when it makes one. *)
Lemma handleSendMessage_fetch o s body :
  Fetch body ∈ snd (handleSendMessage o s) →
  message_of o s ≠ "" ∧ isLoadingRef s = false ∧ selectedAcIdRef s ≠ ""
  ∧ body = {| message := message_of o s;
              zoneId := Js.or (zoneIdFromUrl s) (selectedAcIdRef s);
              acId := selectedAcIdRef s;
              sessionId := sessionIdRef s;
              history :=
                historyWindow
                  (messagesRef s
                     ++ [{| type := user; text := Some (message_of o s) |}]) |}.
Proof.
  unfold handleSendMessage.
  destruct (message_of o s) eqn:Em; cbn [Js.is_empty orb].
  { intros H. by apply elem_of_nil in H. }
  destruct (isLoadingRef s); cbn [orb].
  { intros H. by apply elem_of_nil in H. }
  destruct (selectedAcIdRef s) eqn:Ea; cbn [Js.is_empty].
  { intros H. by apply elem_of_nil in H. }
  cbn [snd]. intros H%list_elem_of_singleton. by simplify_eq.
Qed.

(** * Further properties of the code *)

(** ** Strings *)

Lemma append_assoc (a b c : string) : (a +:+ b) +:+ c = a +:+ (b +:+ c).
Proof.
  induction a as [|x a IH]; [done|].
  change (String x ((a +:+ b) +:+ c) = String x (a +:+ (b +:+ c))).
  by rewrite IH.
Qed.

Lemma or_empty_r (t : string) : Js.or t "" = t.
Proof. by destruct t. Qed.

Lemma is_empty_true (t : string) : Js.is_empty t = true ↔ t = "".
Proof. by destruct t. Qed.

Lemma is_empty_false (t : string) : Js.is_empty t = false ↔ t ≠ "".
Proof. by destruct t. Qed.

Lemma trimEnd_idem (t : string) : Js.trimEnd (Js.trimEnd t) = Js.trimEnd t.
Proof.
  induction t as [|c t IH]; [done|]. cbn [Js.trimEnd].
  destruct (Js.is_ws c && Js.is_empty (Js.trimEnd t)) eqn:E; [done|].
  cbn [Js.trimEnd]. by rewrite IH, E.
Qed.

(** What [trimStart] returns is empty or starts with a character that is
    not white space. *)
Lemma trimStart_head (t : string) :
  Js.trimStart t = ""
  ∨ ∃ c u, Js.trimStart t = String c u ∧ Js.is_ws c = false.
Proof.
  induction t as [|c t IH]; [by left|]. cbn [Js.trimStart].
  destruct (Js.is_ws c) eqn:E; [done|]. right. by exists c, t.
Qed.

Lemma trim_idem (t : string) : Js.trim (Js.trim t) = Js.trim t.
Proof.
  unfold Js.trim. destruct (trimStart_head t) as [->|(c & u & -> & Hc)]; [done|].
  cbn [Js.trimEnd]. rewrite Hc. cbn [andb Js.trimStart]. rewrite Hc.
  cbn [Js.trimEnd]. by rewrite Hc, trimEnd_idem.
Qed.

(** A non-empty trimmed string starts with a character that is not white
    space. *)
Lemma trim_head (t : string) :
  Js.trim t = ""
  ∨ ∃ c u, Js.trim t = String c u ∧ Js.is_ws c = false.
Proof.
  unfold Js.trim. destruct (trimStart_head t) as [->|(c & u & -> & Hc)]; [by left|].
  right. cbn [Js.trimEnd]. rewrite Hc. by eexists _, _.
Qed.

Lemma slice0_nonempty n t :
  t ≠ "" → Js.slice0 (S n) t ≠ "".
Proof. by destruct t. Qed.

Lemma chunk_of_trimmed r : Js.trim (chunk_of r) = chunk_of r.
Proof. unfold chunk_of. apply trim_idem. Qed.

(** ** More about [onresult] *)

(** The invariant of the loop of [onresult] over the set [B] it started
    from: the set is [B] with the fingerprints of the accepted parts, these
    fingerprints are pairwise different, and none of them was in [B]. *)
Lemma onresult_body_dedup (B : gset string) v r :
  seen v = B ∪ list_to_set (Js.toLowerCase <$> finalTextParts v) →
  NoDup (Js.toLowerCase <$> finalTextParts v) →
  (∀ p, p ∈ finalTextParts v → Js.toLowerCase p ∉ B) →
  seen (onresult_body v r)
  = B ∪ list_to_set (Js.toLowerCase <$> finalTextParts (onresult_body v r))
  ∧ NoDup (Js.toLowerCase <$> finalTextParts (onresult_body v r))
  ∧ (∀ p, p ∈ finalTextParts (onresult_body v r) → Js.toLowerCase p ∉ B).
Proof.
  intros Hs Hn Hb. unfold onresult_body.
  destruct (Js.is_empty (chunk_of r)); [done|].
  destruct (isFinal r); [|done].
  destruct (decide _) as [|Hk]; [done|]. cbn [seen finalTextParts].
  rewrite fmap_app, list_to_set_app_L. cbn [fmap list_fmap].
  rewrite Hs in Hk. split; [|split].
  - rewrite Hs. apply set_eq. intros x.
    rewrite !elem_of_union, !elem_of_list_to_set, list_elem_of_singleton,
      elem_of_singleton. tauto.
  - apply NoDup_app. split; [done|]. split; [|apply NoDup_singleton].
    intros k Hin ->%list_elem_of_singleton. apply Hk.
    apply elem_of_union_r, elem_of_list_to_set, Hin.
  - intros p [Hp| ->%list_elem_of_singleton]%elem_of_app; [by apply Hb|].
    intros Hin. apply Hk. by apply elem_of_union_l.
Qed.

Lemma onresult_loop_dedup (B : gset string) results : ∀ v,
  seen v = B ∪ list_to_set (Js.toLowerCase <$> finalTextParts v) →
  NoDup (Js.toLowerCase <$> finalTextParts v) →
  (∀ p, p ∈ finalTextParts v → Js.toLowerCase p ∉ B) →
  seen (onresult_loop results v)
  = B ∪ list_to_set (Js.toLowerCase <$> finalTextParts (onresult_loop results v))
  ∧ NoDup (Js.toLowerCase <$> finalTextParts (onresult_loop results v))
  ∧ (∀ p, p ∈ finalTextParts (onresult_loop results v) → Js.toLowerCase p ∉ B).
Proof.
  induction results as [|r rest IH]; intros v Hs Hn Hb; [done|].
  cbn [onresult_loop].
  destruct (onresult_body_dedup B v r Hs Hn Hb) as (H1 & H2 & H3).
  by apply IH.
Qed.

(** The accepted parts are taken from the final chunks of the event, in
    their order. *)
Lemma onresult_loop_parts_sublist results : ∀ v,
  ∃ l, finalTextParts (onresult_loop results v) = finalTextParts v ++ l
       ∧ l `sublist_of` final_chunks results.
Proof.
  induction results as [|r rest IH]; intros v.
  - exists []. by rewrite app_nil_r.
  - cbn [onresult_loop final_chunks].
    destruct (IH (onresult_body v r)) as (l & Hl & Hsub). rewrite Hl.
    unfold onresult_body.
    destruct (Js.is_empty (chunk_of r)) eqn:Ee; cbn [negb andb].
    { rewrite andb_false_r. by exists l. }
    destruct (isFinal r); cbn [andb].
    + destruct (decide _).
      * exists l. split; [done|]. by apply sublist_cons.
      * exists (chunk_of r :: l). cbn [finalTextParts].
        rewrite <- app_assoc. split; [done|]. by apply sublist_skip.
    + by exists l.
Qed.

Lemma final_chunks_spec results p :
  p ∈ final_chunks results →
  p ≠ "" ∧ trimmed p
  ∧ ∃ r, r ∈ results ∧ isFinal r = true ∧ chunk_of r = p.
Proof.
  induction results as [|r rest IH]; cbn [final_chunks].
  - intros H. by apply elem_of_nil in H.
  - destruct (isFinal r) eqn:Ef, (Js.is_empty (chunk_of r)) eqn:Ee;
      cbn [negb andb].
    2:{ intros [->|H]%elem_of_cons.
        - split; [by apply is_empty_false|]. split; [apply chunk_of_trimmed|].
          exists r. split; [left|done].
        - destruct (IH H) as (? & ? & r' & ? & ? & ?).
          split; [done|]. split; [done|]. exists r'. split; [by right|done]. }
    all: intros H; destruct (IH H) as (? & ? & r' & ? & ? & ?);
      split; [done|]; split; [done|]; exists r'; (split; [by right|done]).
Qed.

(** The interim buffer is the non-blank interim chunks joined by single
    spaces, behind what the buffer held. *)
Lemma onresult_loop_interim results : ∀ v,
  interimText (onresult_loop results v)
  = Js.join " " (if Js.is_empty (interimText v)
                 then interim_chunks results
                 else interimText v :: interim_chunks results).
Proof.
  induction results as [|r rest IH]; intros v.
  - cbn. by destruct (interimText v).
  - cbn [onresult_loop interim_chunks]. rewrite IH. unfold onresult_body.
    destruct (Js.is_empty (chunk_of r)) eqn:Ee; cbn [negb andb].
    { by rewrite andb_false_r. }
    rewrite andb_true_r.
    destruct (isFinal r); cbn [negb].
    { by destruct (decide _). }
    cbn [interimText].
    destruct (chunk_of r) as [|c0 c] eqn:Ec; [done|].
    destruct (interimText v) as [|a0 a]; cbn [Js.is_empty].
    + done.
    + change (Js.is_empty (String a0 a +:+ " " +:+ String c0 c)) with false.
      cbn iota.
      destruct (interim_chunks rest) as [|x xs]; cbn [Js.join].
      * done.
      * by rewrite !append_assoc.
Qed.

(** X1.  Deduplication is exact: the parts an event accepts have pairwise
    different fingerprints, none of which was in the set before; the set
    afterwards is the old one with exactly these fingerprints added; and the
    fingerprint of every final segment of the event that carries text is in
    the set afterwards. *)
Theorem accepted_parts_have_fresh_fingerprints
  (results : list SpeechRecognitionResult) (s : App) :
  is_Some (recognitionRef s) →
  let parts := finalTextParts (onresult_vars results s) in
  NoDup (Js.toLowerCase <$> parts)
  ∧ (∀ p, p ∈ parts → Js.toLowerCase p ∉ seenFinalTexts s)
  ∧ seenFinalTexts (onresult results s)
    = seenFinalTexts s ∪ list_to_set (Js.toLowerCase <$> parts)
  ∧ (∀ k, k ∈ final_keys results → k ∈ seenFinalTexts (onresult results s)).
Proof.
  intros Hr parts. subst parts. rewrite onresult_seen by done.
  unfold onresult_vars.
  destruct (onresult_loop_dedup (seenFinalTexts s) results
              {| seen := seenFinalTexts s; finalTextParts := [];
                 interimText := "" |}) as (H1 & H2 & H3).
  { cbn. by rewrite union_empty_r_L. }
  { cbn. apply NoDup_nil_2. }
  { cbn. intros p Hp. by apply elem_of_nil in Hp. }
  split; [done|]. split; [done|]. split; [done|].
  intros k Hk. by apply onresult_loop_seen_keys.
Qed.

Lemma accepted_parts_have_fresh_fingerprints_witness :
  let s := fst (run listening [OnResult [final_segment "Too cold"]]) in
  let results := [final_segment "too COLD"; final_segment " Fix it ";
                  interim_segment "now"; final_segment "fix it"] in
  is_Some (recognitionRef s)
  ∧ finalTextParts (onresult_vars results s) = ["Fix it"]
  ∧ seenFinalTexts (onresult results s)
    = seenFinalTexts s
      ∪ list_to_set (Js.toLowerCase <$> finalTextParts (onresult_vars results s)).
Proof.
  cbv zeta.
  assert (is_Some (recognitionRef
            (fst (run listening [OnResult [final_segment "Too cold"]])))) as Hr
    by (vm_compute; eauto).
  split; [exact Hr|]. split; [vm_compute; reflexivity|].
  exact (proj1 (proj2 (proj2
           (accepted_parts_have_fresh_fingerprints _ _ Hr)))).
Defined.

(** X2.  The parts an event accepts are trimmed, non-empty texts of its
    final segments, in the order of the event.  When there is at least one,
    the final text becomes these parts joined by single spaces; when there
    is none, the final text stays as it was. *)
Theorem accepted_parts_follow_event_order
  (results : list SpeechRecognitionResult) (s : App) :
  let parts := finalTextParts (onresult_vars results s) in
  parts `sublist_of` final_chunks results
  ∧ Forall (fun p => p ≠ "" ∧ trimmed p
                     ∧ ∃ r, r ∈ results ∧ isFinal r = true ∧ chunk_of r = p)
      parts
  ∧ (is_Some (recognitionRef s) → parts ≠ [] →
     finalTranscriptRef (onresult results s) = Js.trim (Js.join " " parts))
  ∧ (parts = [] → finalTranscriptRef (onresult results s) = finalTranscriptRef s).
Proof.
  intros parts. subst parts. unfold onresult_vars at 1 2.
  destruct (onresult_loop_parts_sublist results
              {| seen := seenFinalTexts s; finalTextParts := [];
                 interimText := "" |}) as (l & Hl & Hsub).
  cbn [finalTextParts app] in Hl. rewrite Hl.
  split; [done|]. split.
  { apply Forall_forall. intros p Hp. apply final_chunks_spec.
    by eapply elem_of_sublist. }
  split.
  - intros Hr Hne. rewrite onresult_final by done. unfold rebuilt_final.
    destruct (finalTextParts (onresult_vars results s)); done.
  - intros He. destruct (recognitionRef s) as [r|] eqn:Er.
    + rewrite onresult_final by (rewrite Er; eauto). unfold rebuilt_final.
      by rewrite He.
    + by rewrite onresult_no_recognition.
Qed.

Lemma accepted_parts_follow_event_order_witness :
  let results := [final_segment " b "; interim_segment "x"; final_segment "a";
                  final_segment "B"] in
  is_Some (recognitionRef listening)
  ∧ finalTextParts (onresult_vars results listening) = ["b"; "a"]
  ∧ finalTranscriptRef (onresult results listening) = "b a".
Proof.
  cbv zeta.
  assert (is_Some (recognitionRef listening)) as Hr by (vm_compute; eauto).
  split; [exact Hr|]. split; [vm_compute; reflexivity|].
  etrans.
  - apply (proj1 (proj2 (proj2 (accepted_parts_follow_event_order _ listening))));
      [exact Hr|vm_compute; discriminate].
  - vm_compute. reflexivity.
Defined.

(** X3.  What an event shows: the interim buffer is the non-blank interim
    chunks of the event joined by single spaces, and the text put in the
    input box and its ref is the final text, a space and that buffer,
    trimmed; when this is empty both are left as they were.  The speech
    error is cleared in every case. *)
Theorem display_is_final_then_interim
  (results : list SpeechRecognitionResult) (s : App) :
  is_Some (recognitionRef s) →
  let shown :=
    Js.trim (finalTranscriptRef (onresult results s) +:+ " "
               +:+ Js.join " " (interim_chunks results)) in
  interimText (onresult_vars results s) = Js.join " " (interim_chunks results)
  ∧ (shown ≠ "" →
     inputValue (onresult results s) = shown
     ∧ inputValueRef (onresult results s) = shown)
  ∧ (shown = "" →
     inputValue (onresult results s) = inputValue s
     ∧ inputValueRef (onresult results s) = inputValueRef s)
  ∧ speechError (onresult results s) = "".
Proof.
  intros Hr shown.
  assert (interimText (onresult_vars results s)
          = Js.join " " (interim_chunks results)) as Hi.
  { unfold onresult_vars. by rewrite onresult_loop_interim. }
  assert (shown = combined_text (onresult_vars results s) s) as Hc.
  { subst shown. unfold combined_text. by rewrite onresult_final, Hi. }
  split; [done|].
  rewrite onresult_inputValue, onresult_inputValueRef by done. cbn zeta.
  rewrite <- Hc. split; [|split].
  - intros Hne. destruct shown; [done|]. done.
  - intros ->. done.
  - destruct Hr as [r Hr]. unfold onresult. rewrite Hr. done.
Qed.

Lemma display_is_final_then_interim_witness :
  let results := [interim_segment " it is "; final_segment "Too cold ";
                  interim_segment ""; interim_segment "in here"] in
  is_Some (recognitionRef listening)
  ∧ interimText (onresult_vars results listening) = "it is in here"
  ∧ inputValue (onresult results listening) = "Too cold it is in here".
Proof.
  cbv zeta.
  assert (is_Some (recognitionRef listening)) as Hr by (vm_compute; eauto).
  split; [exact Hr|].
  destruct (display_is_final_then_interim
              [interim_segment " it is "; final_segment "Too cold ";
               interim_segment ""; interim_segment "in here"] listening Hr)
    as (H1 & H2 & _).
  split; [etrans; [exact H1|vm_compute; reflexivity]|].
  etrans; [apply H2; vm_compute; discriminate|vm_compute; reflexivity].
Defined.

(** X4.  [onresult] keeps the input box and its ref equal, and keeps the
    text in the input box trimmed: what it writes there has no white space
    at either end and is not empty. *)
Theorem onresult_keeps_display_trimmed
  (results : list SpeechRecognitionResult) (s : App) :
  mirrored s → trimmed (inputValue s) →
  mirrored (onresult results s)
  ∧ trimmed (inputValue (onresult results s))
  ∧ (inputValue (onresult results s) = inputValue s
     ∨ inputValue (onresult results s) ≠ "").
Proof.
  unfold mirrored, trimmed. intros Hm Ht.
  destruct (recognitionRef s) as [r|] eqn:Er.
  - assert (is_Some (recognitionRef s)) as Hr by (rewrite Er; eauto).
    rewrite onresult_inputValue, onresult_inputValueRef by done. cbn zeta.
    destruct (0 <? _)%nat eqn:El; [|auto].
    split; [done|]. split; [apply trim_idem|]. right.
    apply Nat.ltb_lt in El. intros Hc. rewrite Hc in El. cbn in El. lia.
  - rewrite onresult_no_recognition by done. auto.
Qed.

Lemma onresult_keeps_display_trimmed_witness :
  let s := fst (run listening [OnResult [interim_segment " so cold  "]]) in
  mirrored s ∧ trimmed (inputValue s)
  ∧ mirrored (onresult [final_segment "  so cold in here "] s)
  ∧ inputValue (onresult [final_segment "  so cold in here "] s)
    = "so cold in here".
Proof.
  cbv zeta.
  assert (mirrored (fst (run listening [OnResult [interim_segment " so cold  "]])))
    as Hm by reflexivity.
  assert (trimmed (inputValue
            (fst (run listening [OnResult [interim_segment " so cold  "]]))))
    as Ht by reflexivity.
  split; [exact Hm|]. split; [exact Ht|].
  split; [|vm_compute; reflexivity].
  exact (proj1 (onresult_keeps_display_trimmed _ _ Hm Ht)).
Defined.

(** The set, the parts and the buffer of a second pass over the same
    event. *)
Lemma onresult_vars_again results s :
  is_Some (recognitionRef s) →
  seen (onresult_vars results (onresult results s))
  = seen (onresult_vars results s)
  ∧ finalTextParts (onresult_vars results (onresult results s)) = []
  ∧ interimText (onresult_vars results (onresult results s))
    = interimText (onresult_vars results s).
Proof.
  intros Hr. unfold onresult_vars at 1 3 5. rewrite onresult_seen by done.
  destruct (onresult_loop_all_seen results
              {| seen := seen (onresult_vars results s); finalTextParts := [];
                 interimText := "" |}) as [H1 H2].
  { intros k Hk. cbn. by apply onresult_loop_seen_keys. }
  split; [done|]. split; [done|].
  unfold onresult_vars. by rewrite !onresult_loop_interim.
Qed.

(** [onresult] written out field by field. *)
Lemma onresult_unfold results s r :
  recognitionRef s = Some r →
  onresult results s
  = let v := onresult_vars results s in
    let combined := combined_text v s in
    let publish := (0 <? String.length combined)%nat in
    {| messagesRef := messagesRef s;
       inputValue := if publish then combined else inputValue s;
       isListening := isListening s;
       isLoadingRef := isLoadingRef s;
       speechError := "";
       selectedAcId := selectedAcId s;
       zoneIdFromUrl := zoneIdFromUrl s;
       isZoneContext := isZoneContext s;
       recognitionRef := Some (set_seenFinalTexts (Some (seen v)) r);
       finalTranscriptRef := rebuilt_final v s;
       shouldSendOnStopRef := shouldSendOnStopRef s;
       inputValueRef := if publish then combined else inputValueRef s;
       selectedAcIdRef := selectedAcIdRef s;
       sessionIdRef := sessionIdRef s |}.
Proof.
  intros Er. unfold onresult, with_recognition. rewrite Er. cbn zeta.
  by destruct (0 <? String.length _)%nat.
Qed.

(** X5.  Delivering the same event a second time changes nothing at all:
    the state after the second delivery is the state after the first. *)
Theorem onresult_twice_same_state
  (results : list SpeechRecognitionResult) (s : App) :
  onresult results (onresult results s) = onresult results s.
Proof.
  destruct (recognitionRef s) as [r|] eqn:Er.
  2:{ by rewrite !(onresult_no_recognition results s Er). }
  assert (is_Some (recognitionRef s)) as Hr by (rewrite Er; eauto).
  destruct (onresult_vars_again results s Hr) as (Hs & Hp & Hi).
  pose proof (onresult_recognitionRef results s r Er) as Hr'.
  pose proof (onresult_final results s Hr) as Hf.
  assert (combined_text (onresult_vars results (onresult results s))
            (onresult results s)
          = combined_text (onresult_vars results s) s) as Hc.
  { unfold combined_text, rebuilt_final at 1. rewrite Hp, Hi. cbn [length].
    change (0 <? 0)%nat with false. cbn iota. by rewrite Hf. }
  rewrite (onresult_unfold results (onresult results s) _ Hr'). cbn zeta.
  unfold rebuilt_final at 1. rewrite Hp, Hc, Hs. cbn [length].
  change (0 <? 0)%nat with false. cbn iota.
  rewrite (onresult_unfold results s r Er). cbn zeta.
  cbn [messagesRef inputValue isListening isLoadingRef speechError selectedAcId
       zoneIdFromUrl isZoneContext recognitionRef finalTranscriptRef
       shouldSendOnStopRef inputValueRef selectedAcIdRef sessionIdRef].
  unfold set_seenFinalTexts. cbn [_isManualStart].
  by destruct (0 <? String.length (combined_text (onresult_vars results s) s))%nat.
Qed.

(** X6.  An event whose final segments all carry texts that were accepted
    before, in this session or in an earlier event, in any casing and with
    any white space around them, leaves the final text and the set as they
    were. *)
Theorem redelivered_finals_change_nothing
  (results1 results2 : list SpeechRecognitionResult) (s : App) :
  is_Some (recognitionRef s) →
  (∀ k, k ∈ final_keys results2 →
        k ∈ final_keys results1 ∨ k ∈ seenFinalTexts s) →
  finalTranscriptRef (onresult results2 (onresult results1 s))
  = finalTranscriptRef (onresult results1 s)
  ∧ seenFinalTexts (onresult results2 (onresult results1 s))
    = seenFinalTexts (onresult results1 s).
Proof.
  intros Hr Hk.
  assert (is_Some (recognitionRef (onresult results1 s))) as Hr1
    by by apply onresult_recognition.
  assert (∀ k, k ∈ final_keys results2 → k ∈ seenFinalTexts (onresult results1 s))
    as Hk1.
  { intros k [Hin|Hin]%Hk; rewrite onresult_seen by done.
    - by apply onresult_loop_seen_keys.
    - by apply onresult_loop_seen_mono. }
  split; [by apply redelivery_keeps_finalText|].
  rewrite (onresult_seen results2) by done. unfold onresult_vars.
  by destruct (onresult_loop_all_seen results2
                 {| seen := seenFinalTexts (onresult results1 s);
                    finalTextParts := []; interimText := "" |} Hk1) as [-> _].
Qed.

Lemma redelivered_finals_change_nothing_witness :
  let results1 := [final_segment "Turn it up"; final_segment "please"] in
  let results2 := [final_segment " PLEASE "; interim_segment "and";
                   final_segment "turn it UP"] in
  is_Some (recognitionRef listening)
  ∧ finalTranscriptRef (onresult results1 listening) = "Turn it up please"
  ∧ finalTranscriptRef (onresult results2 (onresult results1 listening))
    = "Turn it up please"
  ∧ inputValue (onresult results2 (onresult results1 listening))
    = "Turn it up please and".
Proof.
  cbv zeta.
  assert (is_Some (recognitionRef listening)) as Hr by (vm_compute; eauto).
  split; [exact Hr|]. split; [vm_compute; reflexivity|].
  split; [|vm_compute; reflexivity].
  etrans.
  - apply (redelivered_finals_change_nothing
             [final_segment "Turn it up"; final_segment "please"]
             [final_segment " PLEASE "; interim_segment "and";
              final_segment "turn it UP"] listening Hr).
    intros k Hk. left. vm_compute in Hk. vm_compute.
    apply elem_of_cons in Hk as [->|Hk]; [right; left|].
    apply elem_of_cons in Hk as [->|Hk]; [left|]. by apply elem_of_nil in Hk.
  - vm_compute. reflexivity.
Defined.

(** ** More about the dictation session *)

Ltac step_cases s i :=
  destruct i; cbn [step];
  unfold handleVoiceInput_supported, handleVoiceInput_supported_settled,
    handleVoiceInput, handleCancelListening, handleSendMessage,
    handleSendMessage_settled, handleVoiceInput_permission_settled,
    onerror_permission_settled, onstart, onresult, onerror, onend, sync_refs,
    with_recognition, clear_transcripts in *;
  destruct s; cbn in *; subst; case_handlers; try done.

(** The first final segment of a session that has nothing seen yet. *)
Lemma first_final_segment t s :
  is_Some (recognitionRef s) → seenFinalTexts s = ∅ → Js.trim t ≠ "" →
  finalTranscriptRef (onresult [final_segment t] s) = Js.trim t
  ∧ inputValue (onresult [final_segment t] s) = Js.trim t.
Proof.
  intros Hr Hs Ht.
  assert (onresult_vars [final_segment t] s
          = {| seen := {[Js.toLowerCase (Js.trim t)]} ∪ ∅;
               finalTextParts := [Js.trim t]; interimText := "" |}) as Hv.
  { assert (chunk_of (final_segment t) = Js.trim t) as Hc.
    { unfold chunk_of, final_segment. cbn [transcript default].
      by rewrite or_empty_r. }
    unfold onresult_vars. rewrite Hs. cbn [onresult_loop]. unfold onresult_body.
    rewrite Hc. apply is_empty_false in Ht. rewrite Ht.
    cbn [final_segment isFinal seen finalTextParts interimText app].
    destruct (decide _) as [Hin|]; [|done]. by apply not_elem_of_empty in Hin. }
  assert (rebuilt_final (onresult_vars [final_segment t] s) s = Js.trim t) as Hf.
  { rewrite Hv. unfold rebuilt_final. cbn. apply trim_idem. }
  split; [by rewrite onresult_final|].
  rewrite onresult_inputValue by done. cbn zeta. unfold combined_text.
  rewrite Hf, Hv. cbn [interimText].
  change (" " +:+ "") with " ". rewrite trim_append_space, trim_idem.
  destruct (Js.trim t); done.
Qed.

Lemma onstart_seen_empty s :
  seenFinalTexts s = ∅ → seenFinalTexts (onstart s) = ∅.
Proof.
  unfold seenFinalTexts, onstart, with_recognition, clear_seenFinalTexts.
  destruct s as [ms iv il ld se sa zu zc rr ft sf ir sr sid]. cbn.
  destruct rr as [[[] [x|]]|]; cbn; done.
Qed.

(** X7.  A click on the microphone while idle starts from nothing, whatever
    earlier sessions left behind: the final text, the input box and its ref
    are empty, the set is empty, the send flag is down and the error is
    cleared, also when [start()] throws; the session is listening exactly
    when [start()] returned.  The first final segment with text delivered
    then is accepted as it is, trimmed, even if an earlier session had
    accepted the same text, and so it is after [onstart] ran. *)
Theorem start_forgets_earlier_sessions
  (unsupported t : string) (o : StartOutcome) (s : App) :
  is_Some (recognitionRef s) → isListening s = false → Js.trim t ≠ "" →
  let started := fst (handleVoiceInput unsupported o s) in
  transcript_clear started
  ∧ isListening started = (if o is Started then true else false)
  ∧ (o = Started → speechError started = "")
  ∧ finalTranscriptRef (onresult [final_segment t] started) = Js.trim t
  ∧ inputValue (onresult [final_segment t] started) = Js.trim t
  ∧ finalTranscriptRef (onresult [final_segment t] (onstart started)) = Js.trim t.
Proof.
  intros [r Hr] Hl Ht started.
  assert (transcript_clear started ∧ is_Some (recognitionRef started)
          ∧ isListening started = (if o is Started then true else false)
          ∧ (o = Started → speechError started = "")) as (Hc & Hs & Hi & He).
  { subst started. unfold transcript_clear, seenFinalTexts, handleVoiceInput,
      with_recognition, clear_transcripts, clear_seenFinalTexts.
    destruct s as [ms iv il ld se sa zu zc rr ft sf ir sr sid].
    cbn in *. subst.
    destruct r as [m [x|]], o as [|[]]; cbn; repeat split; eauto; done. }
  split; [done|]. split; [done|]. split; [done|].
  destruct Hc as (_ & _ & _ & Hseen & _).
  destruct (first_final_segment t started Hs Hseen Ht) as [H1 H2].
  split; [done|]. split; [done|].
  apply first_final_segment; [| |done].
  - destruct Hs as [r' Hr']. unfold onstart, with_recognition. rewrite Hr'.
    destruct (_isManualStart r'); cbn; rewrite ?Hr'; eauto.
  - by apply onstart_seen_empty.
Qed.

Lemma start_forgets_earlier_sessions_witness :
  let s := fst (run listening [OnResult [final_segment "Too cold"]; OnEnd]) in
  is_Some (recognitionRef s) ∧ isListening s = false
  ∧ "too cold" ∈ seenFinalTexts s
  ∧ finalTranscriptRef
      (onresult [final_segment " too cold "]
         (fst (handleVoiceInput "" Started s)))
    = "too cold".
Proof.
  cbv zeta.
  assert (is_Some (recognitionRef
            (fst (run listening [OnResult [final_segment "Too cold"]; OnEnd]))))
    as Hr by (vm_compute; eauto).
  split; [exact Hr|]. split; [reflexivity|].
  split; [vm_compute; reflexivity|].
  etrans.
  - refine (proj1 (proj2 (proj2 (proj2
              (start_forgets_earlier_sessions "" " too cold " Started _ Hr _ _)))));
      [reflexivity|vm_compute; discriminate].
  - reflexivity.
Defined.

(** Every handler writes the input box and its ref together. *)
Lemma step_mirrored s i : mirrored s → mirrored (fst (step s i)).
Proof. unfold mirrored. intros H. step_cases s i. Qed.

Lemma run_mirrored inputs : ∀ s, mirrored s → mirrored (fst (run s inputs)).
Proof.
  induction inputs as [|i rest IH]; intros s H; [done|].
  cbn [run]. pose proof (step_mirrored s i H) as H1.
  destruct (step s i) as [s1 e1]. cbn [fst] in *.
  specialize (IH s1 H1). by destruct (run s1 rest).
Qed.

(** X8.  Through every sequence of inputs the ref that mirrors the input
    box holds what the input box holds, so a click on the send button sends
    the text the input box shows, trimmed. *)
Theorem send_click_sends_what_is_shown (s : App) (inputs : list Input) :
  mirrored s →
  let s1 := fst (run s inputs) in
  mirrored s1
  ∧ message_of None s1 = Js.trim (inputValue s1)
  ∧ ∀ body, Fetch body ∈ snd (step s1 ClickSend) →
            message body = Js.trim (inputValue s1).
Proof.
  intros Hm s1. pose proof (run_mirrored inputs s Hm) as H1. fold s1 in H1.
  split; [done|].
  assert (message_of None s1 = Js.trim (inputValue s1)) as H2.
  { unfold message_of. by rewrite or_empty_r, H1. }
  split; [done|].
  intros body (_ & _ & _ & ->)%handleSendMessage_fetch. done.
Qed.

Lemma send_click_sends_what_is_shown_witness :
  let s := mount true "sid" "Zone 7" "" in
  let inputs := [TypeText "  it is "; ClickMic "" Started;
                 OnResult [final_segment "too cold"]; OnEnd;
                 TypeText " too cold here  "] in
  mirrored s
  ∧ message_of None (fst (run s inputs)) = "too cold here".
Proof.
  cbv zeta.
  assert (mirrored (mount true "sid" "Zone 7" "")) as Hm by reflexivity.
  split; [exact Hm|].
  etrans; [exact (proj1 (proj2 (send_click_sends_what_is_shown _ _ Hm)))|].
  vm_compute. reflexivity.
Defined.

(** The state [onend] returns, by cases. *)
Lemma onend_state s :
  fst (onend s)
  = let s1 := with_recognition (set_isManualStart false)
                (setIsListening false s) in
    if shouldSendOnStopRef s
    then clear_transcripts (set_shouldSendOnStopRef false s1)
    else if Js.is_empty (Js.trim (inputValueRef s))
         then clear_transcripts s1 else s1.
Proof.
  unfold onend, with_recognition, clear_transcripts.
  destruct s as [ms iv il ld se sa zu zc rr ft sf ir sr sid]. cbn.
  rewrite or_empty_r.
  destruct rr as [r|], sf; cbn;
    try (by destruct (negb _ && _));
    by destruct (Js.trimEnd _).
Qed.

Lemma onend_no_effect s :
  shouldSendOnStopRef s = false → snd (onend s) = [].
Proof. intros H. by destruct (onend_flag_clear s H). Qed.

(** What a stream end leaves behind.  It always ends listening and
    lowers the send flag, and it never touches the deduplication set.  With
    the send flag up it empties the final text, the input box and its ref,
    whether or not it dispatches.  With the flag down it keeps the final
    text and the input box as they are when the ref holds more than white
    space, and empties them otherwise. *)
Theorem stream_end_outcome (s : App) :
  let e := fst (onend s) in
  isListening e = false
  ∧ shouldSendOnStopRef e = false
  ∧ seenFinalTexts e = seenFinalTexts s
  ∧ manual_start_pending e = false
  ∧ (shouldSendOnStopRef s = true →
     finalTranscriptRef e = "" ∧ inputValue e = "" ∧ inputValueRef e = "")
  ∧ (shouldSendOnStopRef s = false → Js.trim (inputValueRef s) ≠ "" →
     finalTranscriptRef e = finalTranscriptRef s
     ∧ inputValue e = inputValue s ∧ inputValueRef e = inputValueRef s
     ∧ snd (onend s) = [])
  ∧ (shouldSendOnStopRef s = false → Js.trim (inputValueRef s) = "" →
     finalTranscriptRef e = "" ∧ inputValue e = "" ∧ inputValueRef e = ""
     ∧ snd (onend s) = []).
Proof.
  intros e. subst e. pose proof (onend_no_effect s) as Hno.
  revert Hno. generalize (snd (onend s)). intros l Hno.
  rewrite onend_state. cbn zeta.
  unfold with_recognition, clear_transcripts, seenFinalTexts,
    manual_start_pending.
  destruct s as [ms iv il ld se sa zu zc rr ft sf ir sr sid].
  cbn [shouldSendOnStopRef inputValueRef recognitionRef] in *.
  destruct (Js.trim ir) eqn:Et; cbn [Js.is_empty];
    destruct rr as [[m x]|], sf; cbn;
    repeat split; intros; try done; by apply Hno.
Qed.

Lemma stream_end_outcome_witness :
  let s := fst (run listening [OnResult [final_segment "too cold";
                                         interim_segment "in here"]]) in
  shouldSendOnStopRef s = false ∧ Js.trim (inputValueRef s) ≠ ""
  ∧ inputValue (fst (onend s)) = "too cold in here"
  ∧ finalTranscriptRef (fst (onend s)) = "too cold"
  ∧ inputValue (fst (onend (fst (step s (ClickMic "" Started))))) = "".
Proof.
  cbv zeta.
  set (s := fst (run listening [OnResult [final_segment "too cold";
                                          interim_segment "in here"]])).
  assert (shouldSendOnStopRef s = false) as Hf by reflexivity.
  assert (Js.trim (inputValueRef s) ≠ "") as Ht by (vm_compute; discriminate).
  destruct (stream_end_outcome s) as (_ & _ & _ & _ & _ & H & _).
  destruct (H Hf Ht) as (H1 & H2 & _).
  destruct (stream_end_outcome (fst (step s (ClickMic "" Started))))
    as (_ & _ & _ & _ & H' & _).
  split; [exact Hf|]. split; [exact Ht|].
  split; [etrans; [exact H2|vm_compute; reflexivity]|].
  split; [etrans; [exact H1|vm_compute; reflexivity]|].
  apply H'. reflexivity.
Defined.

(** The text [onend] hands over is one of the two trimmed candidates. *)
Lemma textToSend_trimmed s :
  textToSend s = "" ∨ trimmed (textToSend s).
Proof.
  unfold textToSend, trimmed. rewrite or_empty_r. unfold Js.or, Js.and.
  destruct (finalTranscriptRef s) as [|c ft]; cbn [Js.is_empty].
  - destruct (inputValueRef s) as [|d ir]; cbn [Js.is_empty]; [by left|].
    right. apply trim_idem.
  - destruct (Js.is_empty (Js.trim (String c ft))) eqn:E.
    + destruct (inputValueRef s) as [|d ir]; cbn [Js.is_empty]; [by left|].
      right. apply trim_idem.
    + right. apply trim_idem.
Qed.

Lemma onend_dispatches s :
  dispatches (snd (onend s))
  = if shouldSendOnStopRef s
    then if Js.is_empty (textToSend s) then [] else [textToSend s]
    else [].
Proof.
  destruct (shouldSendOnStopRef s) eqn:Hf.
  - unfold onend, with_recognition, clear_transcripts, textToSend.
    destruct s as [ms iv il ld se sa zu zc rr ft sf ir sr sid].
    cbn in *; subst.
    destruct rr; cbn; destruct (Js.or (Js.or _ _) "") eqn:E; cbn; done.
  - by rewrite onend_no_effect.
Qed.

Lemma onend_dispatch_trimmed s t :
  t ∈ dispatches (snd (onend s)) → t ≠ "" ∧ trimmed t.
Proof.
  rewrite onend_dispatches. destruct (shouldSendOnStopRef s).
  2:{ intros H. by apply elem_of_nil in H. }
  destruct (Js.is_empty (textToSend s)) eqn:E.
  { intros H. by apply elem_of_nil in H. }
  intros ->%list_elem_of_singleton. apply is_empty_false in E.
  split; [done|]. by destruct (textToSend_trimmed s).
Qed.

(** Only [onend] sets the send timer. *)
Lemma step_dispatches s i :
  dispatches (snd (step s i))
  = match i with OnEnd => dispatches (snd (onend s)) | _ => [] end.
Proof.
  destruct i; cbn [step]; try reflexivity.
  - unfold handleVoiceInput. by repeat (case_match; cbn).
  - unfold handleCancelListening. by repeat (case_match; cbn).
  - unfold handleSendMessage. by repeat (case_match; cbn).
  - unfold onerror. by repeat (case_decide; cbn).
  - unfold handleSendMessage. by repeat (case_match; cbn).
  - unfold handleVoiceInput_supported, handleVoiceInput.
    by repeat (case_match; cbn).
Qed.

Lemma step_dispatch_trimmed s i t :
  t ∈ dispatches (snd (step s i)) → t ≠ "" ∧ trimmed t.
Proof.
  rewrite step_dispatches. destruct i;
    try (intros Hin; by apply elem_of_nil in Hin).
  apply onend_dispatch_trimmed.
Qed.

(** X9.  Whatever happens, a text handed to the dispatcher by a stream
    end is not empty and has no white space at either end; when its timer
    runs, [handleSendMessage] takes it as the message unchanged. *)
Theorem dispatched_text_is_trimmed (s : App) (inputs : list Input) :
  Forall (fun t => t ≠ "" ∧ trimmed t ∧ ∀ s', message_of (Some t) s' = t)
    (dispatches (snd (run s inputs))).
Proof.
  revert s. induction inputs as [|i rest IH]; intros s; [constructor|].
  cbn [run]. pose proof (step_dispatch_trimmed s i) as H1.
  destruct (step s i) as [s1 e1]. specialize (IH s1).
  destruct (run s1 rest) as [s2 e2]. cbn [fst snd] in *.
  rewrite dispatches_app. apply Forall_app. split; [|done].
  apply Forall_forall. intros t Ht. destruct (H1 t Ht) as [Hne Htr].
  split; [done|]. split; [done|]. intros s'. unfold message_of.
  by rewrite or_empty_r.
Qed.

(** ** More about message dispatch *)

(** The requests a step makes come from [handleSendMessage] only. *)
Lemma step_fetches s i :
  fetches (snd (step s i))
  = match i with
    | ClickSend => fetches (snd (handleSendMessage None s))
    | TimerFired t => fetches (snd (handleSendMessage (Some t) s))
    | _ => []
    end.
Proof.
  destruct i; cbn [step]; try reflexivity.
  - unfold handleVoiceInput. by repeat (case_match; cbn).
  - unfold handleCancelListening. by repeat (case_match; cbn).
  - unfold onerror. by repeat (case_decide; cbn).
  - pose proof (onend_dispatches s) as H. unfold onend in *.
    by repeat (case_match; cbn).
  - unfold handleVoiceInput_supported, handleVoiceInput.
    by repeat (case_match; cbn).
Qed.

Lemma fetches_app e1 e2 : fetches (e1 ++ e2) = fetches e1 ++ fetches e2.
Proof. apply omap_app. Qed.

Lemma fetches_spec effects body : body ∈ fetches effects ↔ Fetch body ∈ effects.
Proof.
  unfold fetches. rewrite list_elem_of_omap. split.
  - intros (e & He & Hb). destruct e; simplify_eq. done.
  - intros H. by exists (Fetch body).
Qed.

(** What [handleSendMessage] returns, by cases. *)
Lemma handleSendMessage_cases o s :
  (handleSendMessage o s = (s, [])
   ∧ (message_of o s = "" ∨ isLoadingRef s = true))
  ∨ (handleSendMessage o s
     = (setSpeechError "Please select an AC ID before sending your message." s,
        [])
     ∧ selectedAcIdRef s = "")
  ∨ (∃ body,
       handleSendMessage o s
       = (set_isLoadingRef true
            (set_inputValueRef ""
               (setInputValue ""
                  (set_messagesRef
                     (messagesRef s
                        ++ [{| type := user; text := Some (message_of o s) |}])
                     s))),
          [Fetch body])
       ∧ message_of o s ≠ "" ∧ isLoadingRef s = false
       ∧ selectedAcIdRef s ≠ "").
Proof.
  unfold handleSendMessage.
  destruct (message_of o s) eqn:Em; cbn [Js.is_empty orb]; [left; auto|].
  destruct (isLoadingRef s); cbn [orb]; [left; auto|].
  destruct (selectedAcIdRef s) eqn:Ea; cbn [Js.is_empty]; [right; left; auto|].
  right; right. eexists. split; [reflexivity|]. done.
Qed.

(** X14.  The conversation only grows: whatever is delivered, the messages
    held before are still there, in place, at the start of the list; a
    failed request adds an error entry and removes nothing. *)
Theorem conversation_only_grows (s : App) (inputs : list Input) :
  messagesRef s `prefix_of` messagesRef (fst (run s inputs)).
Proof.
  revert s. induction inputs as [|i rest IH]; intros s; [done|].
  cbn [run].
  assert (messagesRef s `prefix_of` messagesRef (fst (step s i))) as H1.
  { destruct i; cbn [step fst]; try done.
    - unfold handleVoiceInput, with_recognition, clear_transcripts.
      destruct s; cbn. by repeat (case_match; cbn).
    - unfold handleCancelListening, with_recognition, clear_transcripts.
      destruct s; cbn. by repeat (case_match; cbn).
    - destruct (handleSendMessage_cases None s)
        as [[-> _]|[[-> _]|(b & -> & _)]]; cbn; try done.
      by apply prefix_app_r.
    - unfold onstart, with_recognition. destruct s; cbn.
      by repeat (case_match; cbn).
    - destruct (recognitionRef s) as [r|] eqn:Er.
      + by rewrite (onresult_unfold _ _ _ Er).
      + by rewrite onresult_no_recognition.
    - unfold onerror, with_recognition. destruct s; cbn.
      by repeat (case_match; cbn).
    - rewrite onend_state. cbn zeta. unfold with_recognition, clear_transcripts.
      destruct s; cbn. by repeat (case_match; cbn).
    - destruct (handleSendMessage_cases (Some textToSend0) s)
        as [[-> _]|[[-> _]|(b & -> & _)]]; cbn; try done.
      by apply prefix_app_r.
    - unfold handleSendMessage_settled. destruct o as [? [w|]|m]; cbn;
        by apply prefix_app_r.
    - unfold handleVoiceInput_permission_settled, with_recognition.
      destruct s; cbn in *. by repeat (case_match; cbn).
    - unfold handleVoiceInput_supported, handleVoiceInput, with_recognition,
        clear_transcripts.
      destruct s; cbn in *. by repeat (case_match; cbn).
    - unfold handleVoiceInput_supported_settled. by destruct granted. }
  destruct (step s i) as [s1 e1]. specialize (IH s1).
  destruct (run s1 rest) as [s2 e2]. cbn [fst] in *. by etrans.
Qed.

(** While a request is in flight nothing but its settling lowers the
    loading flag, and no step makes a request. *)
Lemma step_while_loading s i :
  isLoadingRef s = true → is_FetchSettled i = false →
  isLoadingRef (fst (step s i)) = true
  ∧ fetches (snd (step s i)) = []
  ∧ messagesRef (fst (step s i)) = messagesRef s.
Proof.
  intros Hl Hi.
  assert (∀ o, handleSendMessage o s = (s, [])) as Hsend.
  { intros o. unfold handleSendMessage. rewrite Hl. by rewrite orb_true_r. }
  rewrite step_fetches. destruct i; cbn [step fst]; try done;
    rewrite ?Hsend; try done.
  - unfold handleVoiceInput, with_recognition, clear_transcripts.
    destruct s; cbn in *. by repeat (case_match; cbn).
  - unfold handleCancelListening, with_recognition, clear_transcripts.
    destruct s; cbn in *. by repeat (case_match; cbn).
  - unfold onstart, with_recognition. destruct s; cbn in *.
    by repeat (case_match; cbn).
  - destruct (recognitionRef s) as [r|] eqn:Er.
    + by rewrite (onresult_unfold _ _ _ Er).
    + by rewrite onresult_no_recognition.
  - unfold onerror, with_recognition. destruct s; cbn in *.
    by repeat (case_match; cbn).
  - rewrite onend_state. cbn zeta. unfold with_recognition, clear_transcripts.
    destruct s; cbn in *. by repeat (case_match; cbn).
  - unfold handleVoiceInput_permission_settled, with_recognition.
    destruct s; cbn in *. by repeat (case_match; cbn).
  - unfold handleVoiceInput_supported, handleVoiceInput, with_recognition,
      clear_transcripts.
    destruct s; cbn in *. by repeat (case_match; cbn).
  - unfold handleVoiceInput_supported_settled. by destruct granted.
Qed.

(** X15.  One request at a time.  A dispatched request raises the loading
    flag, and until that request settles no further request is made and the
    conversation gets no new entry: clicks on send and the send timers of
    finished dictations are dropped, whatever text they carry. *)
Theorem one_request_in_flight
  (o : option string) (s : App) (inputs : list Input) :
  fetches (snd (handleSendMessage o s)) ≠ [] →
  Forall (fun i => is_FetchSettled i = false) inputs →
  let sent := fst (handleSendMessage o s) in
  isLoadingRef sent = true
  ∧ fetches (snd (run sent inputs)) = []
  ∧ messagesRef (fst (run sent inputs)) = messagesRef sent
  ∧ isLoadingRef (fst (run sent inputs)) = true.
Proof.
  intros Hf Hin sent.
  assert (isLoadingRef sent = true) as Hl.
  { subst sent. destruct (handleSendMessage_cases o s)
      as [[E _]|[[E _]|(b & E & _)]]; rewrite E in *; done. }
  split; [done|]. clearbody sent. clear Hf. revert sent Hl.
  induction Hin as [|i rest Hi _ IH]; intros sent Hl; [done|].
  cbn [run]. destruct (step_while_loading sent i Hl Hi) as (H1 & H2 & H3).
  destruct (step sent i) as [s1 e1]. cbn [fst snd] in *.
  destruct (IH s1 H1) as (H4 & H5 & H6).
  destruct (run s1 rest) as [s2 e2]. cbn [fst snd] in *.
  rewrite fetches_app, H2, H4. split; [done|]. split; [congruence|done].
Qed.

Lemma one_request_in_flight_witness :
  let s := fst (run (mount true "sid" "Zone 7" "") [TypeText "too cold"]) in
  let inputs := [ClickSend; ClickMic "" Started;
                 OnResult [final_segment "much too cold"];
                 ClickMic "" Started; OnEnd; TimerFired "much too cold"] in
  fetches (snd (handleSendMessage None s)) ≠ []
  ∧ dispatches (snd (run (fst (handleSendMessage None s)) inputs))
    = ["much too cold"]
  ∧ fetches (snd (run (fst (handleSendMessage None s)) inputs)) = []
  ∧ length (messagesRef (fst (run (fst (handleSendMessage None s)) inputs))) = 1.
Proof.
  cbv zeta.
  set (s := fst (run (mount true "sid" "Zone 7" "") [TypeText "too cold"])).
  assert (fetches (snd (handleSendMessage None s)) ≠ []) as Hf
    by (vm_compute; discriminate).
  split; [exact Hf|]. split; [vm_compute; reflexivity|].
  destruct (one_request_in_flight None s
              [ClickSend; ClickMic "" Started;
               OnResult [final_segment "much too cold"];
               ClickMic "" Started; OnEnd; TimerFired "much too cold"] Hf)
    as (_ & H1 & H2 & _).
  { repeat constructor. }
  split; [exact H1|]. rewrite H2. vm_compute. reflexivity.
Defined.

(** No handler writes the zone id, the selected AC id, the zone context or
    the session id; the ref of the selected AC id is only ever synchronised
    with it. *)
Lemma step_zone_fixed s i :
  selectedAcIdRef s = selectedAcId s →
  zoneIdFromUrl (fst (step s i)) = zoneIdFromUrl s
  ∧ selectedAcId (fst (step s i)) = selectedAcId s
  ∧ selectedAcIdRef (fst (step s i)) = selectedAcIdRef s
  ∧ isZoneContext (fst (step s i)) = isZoneContext s
  ∧ sessionIdRef (fst (step s i)) = sessionIdRef s.
Proof.
  intros Ha. destruct i; cbn [step fst]; try done.
  - unfold handleVoiceInput, with_recognition, clear_transcripts.
    destruct s; cbn in *. by repeat (case_match; cbn).
  - unfold handleCancelListening, with_recognition, clear_transcripts.
    destruct s; cbn in *. by repeat (case_match; cbn).
  - destruct (handleSendMessage_cases None s)
      as [[-> _]|[[-> _]|(b & -> & _)]]; done.
  - unfold onstart, with_recognition. destruct s; cbn in *.
    by repeat (case_match; cbn).
  - destruct (recognitionRef s) as [r|] eqn:Er.
    + by rewrite (onresult_unfold _ _ _ Er).
    + by rewrite onresult_no_recognition.
  - unfold onerror, with_recognition. destruct s; cbn in *.
    by repeat (case_match; cbn).
  - rewrite onend_state. cbn zeta. unfold with_recognition, clear_transcripts.
    destruct s; cbn in *. by repeat (case_match; cbn).
  - destruct (handleSendMessage_cases (Some textToSend0) s)
      as [[-> _]|[[-> _]|(b & -> & _)]]; done.
  - unfold handleSendMessage_settled. by destruct o as [? [w|]|m].
  - unfold handleVoiceInput_permission_settled, with_recognition.
    destruct s; cbn in *. by repeat (case_match; cbn).
  - unfold handleVoiceInput_supported, handleVoiceInput, with_recognition,
      clear_transcripts.
    destruct s; cbn in *. by repeat (case_match; cbn).
  - unfold handleVoiceInput_supported_settled. by destruct granted.
Qed.

Lemma run_zone_fixed inputs : ∀ s,
  selectedAcIdRef s = selectedAcId s →
  zoneIdFromUrl (fst (run s inputs)) = zoneIdFromUrl s
  ∧ selectedAcId (fst (run s inputs)) = selectedAcId s
  ∧ selectedAcIdRef (fst (run s inputs)) = selectedAcIdRef s
  ∧ isZoneContext (fst (run s inputs)) = isZoneContext s
  ∧ sessionIdRef (fst (run s inputs)) = sessionIdRef s.
Proof.
  induction inputs as [|i rest IH]; intros s Ha; [done|].
  cbn [run]. destruct (step_zone_fixed s i Ha) as (H1 & H2 & H3 & H4 & H5).
  destruct (step s i) as [s1 e1]. cbn [fst] in *.
  destruct (IH s1) as (G1 & G2 & G3 & G4 & G5); [congruence|].
  destruct (run s1 rest) as [s2 e2]. cbn [fst] in *.
  repeat split; congruence.
Qed.

(** Every request of a run carries the ids of the state the run started
    from. *)
Lemma run_fetches_ids inputs : ∀ s body,
  selectedAcIdRef s = selectedAcId s →
  body ∈ fetches (snd (run s inputs)) →
  zoneId body = Js.or (zoneIdFromUrl s) (selectedAcIdRef s)
  ∧ acId body = selectedAcIdRef s ∧ selectedAcIdRef s ≠ ""
  ∧ sessionId body = sessionIdRef s.
Proof.
  induction inputs as [|i rest IH]; intros s body Ha.
  { intros H. by apply elem_of_nil in H. }
  cbn [run]. destruct (step_zone_fixed s i Ha) as (H1 & H2 & H3 & H4 & H5).
  pose proof (step_fetches s i) as Hf.
  destruct (step s i) as [s1 e1]. cbn [fst snd] in *.
  specialize (IH s1 body). destruct (run s1 rest) as [s2 e2]. cbn [fst snd] in *.
  rewrite fetches_app. intros [Hin|Hin]%elem_of_app.
  - rewrite Hf in Hin.
    assert (∀ o, body ∈ fetches (snd (handleSendMessage o s)) →
                 zoneId body = Js.or (zoneIdFromUrl s) (selectedAcIdRef s)
                 ∧ acId body = selectedAcIdRef s ∧ selectedAcIdRef s ≠ ""
                 ∧ sessionId body = sessionIdRef s) as Hsend.
    { intros o (_ & _ & Hne & ->)%fetches_spec%handleSendMessage_fetch. done. }
    destruct i; try (by apply elem_of_nil in Hin); by eapply Hsend.
  - rewrite <- H1, <- H3, <- H5. apply IH; [congruence|done].
Qed.

(** The ids [mount] sets. *)
Lemma mount_ids supported sid zq zp :
  let zid := Js.trim (Js.or (Js.or zq zp) "") in
  let s0 := mount supported sid zq zp in
  zoneIdFromUrl s0 = (if Js.is_empty zid then "" else Js.slice0 64 zid)
  ∧ selectedAcIdRef s0
    = (if Js.is_empty zid then "AC-001" else Js.slice0 64 zid)
  ∧ selectedAcId s0 = selectedAcIdRef s0
  ∧ isZoneContext s0 = negb (Js.is_empty zid)
  ∧ sessionIdRef s0 = sid
  ∧ selectedAcIdRef s0 ≠ ""
  ∧ (isZoneContext s0 = true → zoneIdFromUrl s0 = selectedAcIdRef s0).
Proof.
  intros zid s0. subst s0 zid. unfold mount, zone_effect.
  destruct (Js.is_empty (Js.trim _)) eqn:E.
  - repeat split; done.
  - repeat split; try reflexivity.
    apply is_empty_false in E. exact (slice0_nonempty 63 _ E).
Qed.

(** X18.  The ids of a page are fixed when it is mounted.  Through every
    sequence of inputs the zone id, the selected AC id and its ref, the zone
    context and the session id stay what [mount] made them; in particular
    the selected AC id is never empty, so the branch of [handleSendMessage]
    that asks to select an AC id is never taken. *)
Theorem page_ids_are_fixed_at_mount
  (supported : bool) (sid zq zp : string) (inputs : list Input)
  (o : option string) :
  let s0 := mount supported sid zq zp in
  let s := fst (run s0 inputs) in
  zoneIdFromUrl s = zoneIdFromUrl s0
  ∧ selectedAcIdRef s = selectedAcIdRef s0
  ∧ isZoneContext s = isZoneContext s0
  ∧ sessionIdRef s = sid
  ∧ selectedAcIdRef s ≠ ""
  ∧ speechError (fst (handleSendMessage o s)) = speechError s.
Proof.
  intros s0 s.
  assert (selectedAcIdRef s0 = selectedAcId s0) as Ha by done.
  destruct (run_zone_fixed inputs s0 Ha) as (H1 & H2 & H3 & H4 & H5).
  fold s in H1, H2, H3, H4, H5.
  destruct (mount_ids supported sid zq zp) as (_ & _ & _ & _ & Hsid & Hne & _).
  fold s0 in Hsid, Hne.
  split; [done|]. split; [done|]. split; [done|]. split; [congruence|].
  split; [congruence|].
  destruct (handleSendMessage_cases o s)
    as [[-> _]|[[_ Hc]|(b & -> & _)]]; [done| |done].
  congruence.
Qed.

(** X19.  Every request sent from a page, through any sequence of inputs,
    carries the same zone id as [zoneId] and as [acId]: the zone id of the
    URL cut to 64 characters, or "AC-001" when the URL gave none.  It is
    never empty and never longer than 64 characters, and the request
    carries the session id the page was mounted with. *)
Theorem requests_carry_the_page_zone
  (supported : bool) (sid zq zp : string) (inputs : list Input)
  (body : FeedbackRequest) :
  body ∈ fetches (snd (run (mount supported sid zq zp) inputs)) →
  let zid := Js.trim (Js.or (Js.or zq zp) "") in
  zoneId body = (if Js.is_empty zid then "AC-001" else Js.slice0 64 zid)
  ∧ acId body = zoneId body
  ∧ zoneId body ≠ ""
  ∧ String.length (zoneId body) ≤ 64
  ∧ sessionId body = sid.
Proof.
  intros Hin zid.
  destruct (run_fetches_ids inputs (mount supported sid zq zp) body)
    as (Hz & Ha & Hne & Hs); [done|done|].
  assert (zoneId body = (if Js.is_empty zid then "AC-001" else Js.slice0 64 zid)
          ∧ acId body = zoneId body) as [Hz' Ha'].
  { rewrite Hz, Ha.
    destruct (mount_ids supported sid zq zp) as (M1 & M2 & _ & _ & _ & M6 & _).
    cbn zeta in M1, M2. fold zid in M1, M2. rewrite M1, M2.
    rewrite M2 in M6. destruct (Js.is_empty zid); [done|].
    unfold Js.or. by destruct (Js.slice0 64 zid). }
  split; [done|]. split; [done|]. split; [congruence|].
  split.
  - rewrite Hz'. destruct (Js.is_empty zid); [cbn; lia|]. apply slice0_length.
  - rewrite Hs. apply mount_ids.
Qed.

Lemma requests_carry_the_page_zone_witness :
  let inputs := [ClickMic "" Started; OnResult [final_segment "too cold"];
                 ClickMic "" Started; OnEnd; TimerFired "too cold"] in
  ∃ body, body ∈ fetches (snd (run (mount true "sid" "" " Zone 7 ") inputs))
          ∧ zoneId body = "Zone 7" ∧ acId body = "Zone 7"
          ∧ message body = "too cold".
Proof.
  cbv zeta.
  assert (∃ body, body ∈ fetches (snd (run (mount true "sid" "" " Zone 7 ")
            [ClickMic "" Started; OnResult [final_segment "too cold"];
             ClickMic "" Started; OnEnd; TimerFired "too cold"]))
          ∧ message body = "too cold") as (body & Hb & Hm).
  { eexists. split; [vm_compute; apply list_elem_of_singleton; reflexivity|].
    reflexivity. }
  exists body. split; [exact Hb|].
  destruct (requests_carry_the_page_zone true "sid" "" " Zone 7 " _ body Hb)
    as (Hz & Ha & _).
  split; [exact Hz|]. split; [|exact Hm]. rewrite Ha. exact Hz.
Defined.

(** What a call of [handleSendMessage] that makes a request does to the
    state. *)
Lemma handleSendMessage_sent o s body :
  Fetch body ∈ snd (handleSendMessage o s) →
  let sent := fst (handleSendMessage o s) in
  message body = message_of o s
  ∧ message body ≠ "" ∧ trimmed (message body)
  ∧ messagesRef sent
    = messagesRef s ++ [{| type := user; text := Some (message body) |}]
  ∧ inputValue sent = "" ∧ inputValueRef sent = ""
  ∧ isLoadingRef sent = true.
Proof.
  intros Hin sent.
  destruct (handleSendMessage_fetch o s body Hin) as (Hne & Hl & Ha & ->).
  cbn [message].
  assert (trimmed (message_of o s)) as Ht by apply trim_idem.
  split; [done|]. split; [done|]. split; [done|].
  subst sent. destruct (handleSendMessage_cases o s)
    as [[_ [E|E]]|[[_ E]|(b & -> & _)]]; try done. congruence.
Qed.

(** X16.  A dispatched request takes the trimmed, non-empty message, puts
    it at the end of the conversation as a user message and empties the
    input box and its ref; its history always ends with that same message,
    cut to 500 characters, so the history of a request is never empty. *)
Theorem history_ends_with_sent_message
  (o : option string) (s : App) (body : FeedbackRequest) :
  Fetch body ∈ snd (handleSendMessage o s) →
  let sent := fst (handleSendMessage o s) in
  message body = message_of o s
  ∧ message body ≠ "" ∧ trimmed (message body)
  ∧ last (history body)
    = Some {| role := "user"; entry_text := Js.slice0 500 (message body) |}
  ∧ messagesRef sent
    = messagesRef s ++ [{| type := user; text := Some (message body) |}]
  ∧ inputValue sent = "" ∧ inputValueRef sent = ""
  ∧ isLoadingRef sent = true.
Proof.
  intros Hin sent.
  destruct (handleSendMessage_fetch o s body Hin) as (Hne & Hl & Ha & ->).
  cbn [message history].
  assert (trimmed (message_of o s)) as Ht by apply trim_idem.
  split; [done|]. split; [done|]. split; [done|]. split.
  - unfold historyWindow, Js.slice_last. rewrite length_app. cbn [length].
    rewrite drop_app_le by lia. rewrite filter_app, fmap_app.
    rewrite filter_cons_True, filter_nil.
    + cbn [fmap list_fmap]. rewrite last_snoc. done.
    + unfold has_text. cbn [text]. rewrite Ht.
      destruct (message_of o s); done.
  - subst sent. destruct (handleSendMessage_cases o s)
      as [[_ [E|E]]|[[_ E]|(b & -> & _)]]; try done. congruence.
Qed.

Lemma history_ends_with_sent_message_witness :
  let s := set_messagesRef
             (replicate 12 {| type := assistant; text := None |})
             (mount true "sid" "Zone 7" "") in
  ∃ body, Fetch body ∈ snd (handleSendMessage (Some "  too cold ") s)
          ∧ history body = [{| role := "user"; entry_text := "too cold" |}].
Proof.
  intros s.
  assert (∃ body, Fetch body ∈ snd (handleSendMessage (Some "  too cold ") s)
                  ∧ length (history body) = 1) as (body & Hb & Hlen).
  { eexists. split; [vm_compute; apply list_elem_of_singleton; reflexivity|].
    reflexivity. }
  exists body. split; [exact Hb|].
  destruct (history_ends_with_sent_message _ _ _ Hb) as (Hm & _ & _ & Hlast & _).
  destruct (history body) as [|e [|e' l]]; try discriminate.
  cbn in Hlast. injection Hlast as ->. rewrite Hm. reflexivity.
Defined.

(** ** What the page allows *)

(** X21.  On a page opened without a zone id no control is rendered, so
    through every sequence of inputs the page allows no request is sent:
    the fallback "AC-001" never reaches the server. *)
Theorem page_without_zone_sends_nothing
  (supported : bool) (sid zq zp : string) (inputs : list Input) :
  Js.trim (Js.or (Js.or zq zp) "") = "" →
  page_allows (mount supported sid zq zp) [] inputs →
  fetches (snd (run (mount supported sid zq zp) inputs)) = []
  ∧ dispatches (snd (run (mount supported sid zq zp) inputs)) = []
  ∧ isListening (fst (run (mount supported sid zq zp) inputs)) = false.
Proof.
  intros Hz.
  assert (isZoneContext (mount supported sid zq zp) = false
          ∧ shouldSendOnStopRef (mount supported sid zq zp) = false
          ∧ isListening (mount supported sid zq zp) = false
          ∧ selectedAcIdRef (mount supported sid zq zp)
            = selectedAcId (mount supported sid zq zp)) as Hinv.
  { unfold mount, zone_effect. rewrite Hz. done. }
  revert Hinv. generalize (mount supported sid zq zp).
  induction inputs as [|i rest IH]; intros s (Hc & Hf & Hl & Ha) Hp; [done|].
  destruct Hp as [Hi Hp].
  assert (is_ClickMic i = false ∧ fetches (snd (step s i)) = []
          ∧ isListening (fst (step s i)) = false) as (Hm & Hfe & Hl').
  { destruct i; cbn in Hi; rewrite ?Hc in Hi; try done;
      try (by apply elem_of_nil in Hi); rewrite step_fetches;
      (split; [done|]); (split; [done|]); cbn [step fst]; try done.
    - unfold onstart, with_recognition. destruct s; cbn in *.
      by repeat (case_match; cbn).
    - destruct (recognitionRef s) as [r|] eqn:Er.
      + by rewrite (onresult_unfold _ _ _ Er).
      + by rewrite onresult_no_recognition.
    - unfold onerror, with_recognition. destruct s; cbn in *.
      by repeat (case_match; cbn).
    - by destruct (stream_end_outcome s) as (? & _).
    - unfold handleSendMessage_settled. by destruct o as [? [w|]|m].
    - unfold handleVoiceInput_permission_settled, with_recognition.
      destruct s; cbn in *. by repeat (case_match; cbn).
    - unfold handleVoiceInput_supported_settled. by destruct granted. }
  assert (is_stopAndSend s i = false) as Hss.
  { unfold is_stopAndSend. destruct i; try done. }
  destruct (step_keeps_flag_clear s i Hf Hss) as [Hf' Hd].
  destruct (step_zone_fixed s i Ha) as (_ & Ha2 & Ha3 & Hc' & _).
  cbn [run]. cbn [page_allows] in Hp. rewrite Hd, app_nil_r in Hp.
  assert ((match i with TimerFired t => remove_first t [] | _ => [] end) = [])
    as Ht by by destruct i.
  rewrite Ht in Hp.
  destruct (step s i) as [s1 e1]. cbn [fst snd] in *.
  destruct (IH s1) as (G1 & G2 & G3); [|done|].
  { repeat split; congruence. }
  destruct (run s1 rest) as [s2 e2]. cbn [fst snd] in *.
  by rewrite fetches_app, dispatches_app, Hfe, Hd, G1, G2.
Qed.

Lemma page_without_zone_sends_nothing_witness :
  let inputs := [OnResult [final_segment "too cold"]; OnEnd;
                 FetchSettled (Failed "offline")] in
  Js.trim (Js.or (Js.or "  " "") "") = ""
  ∧ page_allows (mount true "sid" "  " "") [] inputs
  ∧ ¬ page_allows (mount true "sid" "  " "") [] [ClickSend]
  ∧ fetches (snd (run (mount true "sid" "  " "") inputs)) = [].
Proof.
  cbv zeta.
  assert (Js.trim (Js.or (Js.or "  " "") "") = "") as Hz by reflexivity.
  assert (page_allows (mount true "sid" "  " "") []
            [OnResult [final_segment "too cold"]; OnEnd;
             FetchSettled (Failed "offline")]) as Hp by (cbn; auto).
  split; [exact Hz|]. split; [exact Hp|]. split.
  - intros [H _]. vm_compute in H. discriminate.
  - exact (proj1 (page_without_zone_sends_nothing true "sid" "  " "" _ Hz Hp)).
Defined.

(** X22.  Whenever the send button is enabled, after any sequence of
    inputs on a mounted page, a click on it sends exactly one request: the
    message is the text of the input box, trimmed, and the zone id is the
    zone id of the URL. *)
Theorem enabled_send_click_dispatches
  (supported : bool) (sid zq zp : string) (inputs : list Input) :
  let s := fst (run (mount supported sid zq zp) inputs) in
  rendered s ClickSend = true →
  ∃ body, snd (step s ClickSend) = [Fetch body]
          ∧ message body = Js.trim (inputValue s)
          ∧ zoneId body = zoneIdFromUrl s
          ∧ zoneIdFromUrl s ≠ "".
Proof.
  intros s Hr. cbn [rendered] in Hr.
  apply andb_true_iff in Hr as [Hc Hr]. apply negb_true_iff in Hr.
  apply orb_false_iff in Hr as [He Hl]. apply is_empty_false in He.
  assert (mirrored (mount supported sid zq zp)) as Hm0.
  { unfold mirrored, mount, zone_effect. by destruct (Js.is_empty _). }
  pose proof (run_mirrored inputs _ Hm0) as Hm1. fold s in Hm1.
  assert (message_of None s = Js.trim (inputValue s)) as Hmsg.
  { unfold message_of. by rewrite or_empty_r, Hm1. }
  destruct (mount_ids supported sid zq zp) as (_ & _ & M3 & _ & _ & M6 & M7).
  destruct (run_zone_fixed inputs (mount supported sid zq zp)) as
    (Z1 & _ & Z3 & Z4 & _); [done|]. fold s in Z1, Z3, Z4.
  cbn [step].
  destruct (handleSendMessage_cases None s)
    as [[_ [E|E]]|[[_ E]|(body & E & _)]]; try congruence.
  exists body.
  assert (Fetch body ∈ snd (handleSendMessage None s)) as Hin.
  { rewrite E. by apply list_elem_of_singleton. }
  destruct (handleSendMessage_fetch _ _ _ Hin) as (_ & _ & _ & Hb).
  split; [by rewrite E|]. rewrite Hb. cbn [message zoneId].
  split; [done|].
  assert (zoneIdFromUrl s = selectedAcIdRef s) as Hzs.
  { rewrite Z1, Z3. apply M7. congruence. }
  split; [|congruence].
  rewrite Hzs. unfold Js.or. destruct (selectedAcIdRef s); [congruence|done].
Qed.

Lemma enabled_send_click_dispatches_witness :
  let s := fst (run (mount true "sid" "" "7")
                  [ClickMic "" Started; OnResult [final_segment "too cold"];
                   OnEnd; TypeText " too cold in here "]) in
  rendered s ClickSend = true
  ∧ ∃ body, snd (step s ClickSend) = [Fetch body]
            ∧ message body = "too cold in here" ∧ zoneId body = "7".
Proof.
  cbv zeta.
  assert (rendered (fst (run (mount true "sid" "" "7")
                  [ClickMic "" Started; OnResult [final_segment "too cold"];
                   OnEnd; TypeText " too cold in here "])) ClickSend = true)
    as Hr by reflexivity.
  split; [exact Hr|].
  destruct (enabled_send_click_dispatches true "sid" "" "7" _ Hr)
    as (body & H1 & H2 & H3 & _).
  exists body. split; [exact H1|]. split.
  - rewrite H2. vm_compute. reflexivity.
  - rewrite H3. vm_compute. reflexivity.
Defined.

(** ** Restarts of the stream *)

Lemma onstart_not_pending s : manual_start_pending (onstart s) = false.
Proof.
  unfold manual_start_pending, onstart, with_recognition, clear_seenFinalTexts.
  destruct s as [ms iv il ld se sa zu zc rr ft sf ir sr sid]. cbn.
  destruct rr as [[[] [x|]]|]; cbn; done.
Qed.

Lemma onstart_when_not_pending s : manual_start_pending s = false → onstart s = s.
Proof.
  unfold manual_start_pending, onstart. destruct (recognitionRef s) as [r|]; [|done].
  by intros ->.
Qed.

Lemma step_not_pending s i :
  is_ClickMic i = false → manual_start_pending s = false →
  manual_start_pending (fst (step s i)) = false.
Proof.
  intros Hi Hp. destruct i; cbn [step fst]; try done.
  - unfold handleCancelListening, with_recognition, clear_transcripts,
      clear_seenFinalTexts, manual_start_pending in *.
    destruct s as [ms iv il ld se sa zu zc rr ft sf ir sr sid]. cbn in *.
    destruct rr as [[m [x|]]|]; cbn in *; done.
  - destruct (handleSendMessage_cases None s)
      as [[-> _]|[[-> _]|(b & -> & _)]]; done.
  - apply onstart_not_pending.
  - destruct (recognitionRef s) as [r|] eqn:Er.
    + rewrite (onresult_unfold _ _ _ Er). unfold manual_start_pending in *.
      rewrite Er in Hp. done.
    + by rewrite onresult_no_recognition.
  - unfold onerror, with_recognition, manual_start_pending.
    destruct s as [ms iv il ld se sa zu zc rr ft sf ir sr sid]. cbn.
    destruct rr; repeat (case_decide; cbn); done.
  - by destruct (stream_end_outcome s) as (_ & _ & _ & ? & _).
  - destruct (handleSendMessage_cases (Some textToSend0) s)
      as [[-> _]|[[-> _]|(b & -> & _)]]; done.
  - unfold handleSendMessage_settled. by destruct o as [? [w|]|m].
  - unfold handleVoiceInput_permission_settled, with_recognition,
      manual_start_pending.
    destruct s as [ms iv il ld se sa zu zc rr ft sf ir sr sid]. cbn.
    by destruct granted, rr.
  - unfold handleVoiceInput_supported_settled. by destruct granted.
Qed.

(** X12.  Once the stream has reported its start, a later start event with
    no click on the microphone in between (the browser restarting the
    stream by itself) changes nothing: the final text, the set and
    everything else stay as they are. *)
Theorem auto_restart_changes_nothing (s : App) (inputs : list Input) :
  Forall (fun i => is_ClickMic i = false) inputs →
  let s1 := fst (run (onstart s) inputs) in
  onstart s1 = s1.
Proof.
  intros Hin s1. apply onstart_when_not_pending. subst s1.
  pose proof (onstart_not_pending s) as Hp. revert Hp.
  generalize (onstart s). clear s.
  induction Hin as [|i rest Hi _ IH]; intros s Hp; [done|].
  cbn [run]. pose proof (step_not_pending s i Hi Hp) as H1.
  destruct (step s i) as [s1 e1]. specialize (IH s1 H1).
  by destruct (run s1 rest).
Qed.

Lemma auto_restart_changes_nothing_witness :
  let inputs := [OnResult [final_segment "too cold"];
                 OnResult [interim_segment "in here"]] in
  Forall (fun i => is_ClickMic i = false) inputs
  ∧ finalTranscriptRef (onstart (fst (run (onstart listening) inputs)))
    = "too cold"
  ∧ finalTranscriptRef (onstart (fst (run listening inputs))) = "".
Proof.
  cbv zeta.
  assert (Forall (fun i => is_ClickMic i = false)
            [OnResult [final_segment "too cold"];
             OnResult [interim_segment "in here"]]) as Hin
    by (repeat constructor).
  split; [exact Hin|]. split; [|vm_compute; reflexivity].
  rewrite (auto_restart_changes_nothing listening _ Hin).
  vm_compute. reflexivity.
Defined.

(** ** The zone id of the URL *)

Lemma occurs_trimStart c t :
  occurs c (Js.trimStart t) = true → occurs c t = true.
Proof.
  induction t as [|d t IH]; [done|]. cbn [Js.trimStart].
  destruct (Js.is_ws d); [|done]. intros H%IH. cbn [occurs].
  by rewrite H, orb_true_r.
Qed.

Lemma occurs_trimEnd c t :
  occurs c (Js.trimEnd t) = true → occurs c t = true.
Proof.
  induction t as [|d t IH]; [done|]. cbn [Js.trimEnd].
  destruct (Js.is_ws d && Js.is_empty (Js.trimEnd t)); [done|].
  cbn [occurs]. intros [->|H%IH]%orb_true_iff; [done|].
  by rewrite H, orb_true_r.
Qed.

Lemma occurs_trim c t : occurs c (Js.trim t) = true → occurs c t = true.
Proof. intros H%occurs_trimEnd. by apply occurs_trimStart. Qed.

Lemma before_slash_no_slash t : occurs "/" (before_slash t) = false.
Proof.
  induction t as [|d t IH]; [done|]. cbn [before_slash].
  destruct (Ascii.eqb d "/") eqn:E; [done|]. cbn [occurs].
  by rewrite IH, orb_false_r, Ascii.eqb_sym.
Qed.

Lemma zidFromPath_spec pathname :
  trimmed (zidFromPath pathname)
  ∧ occurs "/" (zidFromPath pathname) = false.
Proof.
  unfold zidFromPath. destruct (negb _); [|done]. split; [apply trim_idem|].
  destruct (occurs "/" (Js.trim _)) eqn:E; [|done].
  apply occurs_trim in E. by rewrite before_slash_no_slash in E.
Qed.

Lemma zone_effect_zid q p :
  trimmed q → trimmed p →
  Js.trim (Js.or (Js.or q p) "") = Js.or q p.
Proof.
  unfold trimmed. intros Hq Hp. rewrite or_empty_r. unfold Js.or.
  by destruct (Js.is_empty q).
Qed.

Lemma strip_leading_slashes_slashes n t :
  strip_leading_slashes (slashes n +:+ t) = strip_leading_slashes t.
Proof. induction n as [|n IH]; [done|]. cbn. exact IH. Qed.

Lemma strip_leading_slashes_segment seg rest :
  seg ≠ "" → occurs "/" seg = false →
  strip_leading_slashes (seg +:+ rest) = seg +:+ rest.
Proof.
  destruct seg as [|c seg]; [done|]. intros _ H. cbn [occurs] in H.
  apply orb_false_iff in H as [H _].
  change (String c seg +:+ rest) with (String c (seg +:+ rest)).
  cbn [strip_leading_slashes].
  destruct c as [[] [] [] [] [] [] [] []]; try done.
Qed.

Lemma before_slash_segment seg rest :
  occurs "/" seg = false → (rest = "" ∨ ∃ r, rest = String "/" r) →
  before_slash (seg +:+ rest) = seg.
Proof.
  intros Hs Hr. induction seg as [|c seg IH].
  - cbn. destruct Hr as [->|[r ->]]; done.
  - cbn [occurs] in Hs. apply orb_false_iff in Hs as [Hc Hs].
    change (String c seg +:+ rest) with (String c (seg +:+ rest)).
    cbn [before_slash]. rewrite Ascii.eqb_sym, Hc. by rewrite IH.
Qed.

Lemma slashes_segment_not_root n seg rest :
  seg ≠ "" → occurs "/" seg = false →
  slashes n +:+ seg +:+ rest ≠ "/" ∧ slashes n +:+ seg +:+ rest ≠ "".
Proof.
  destruct seg as [|c seg]; [done|]. intros _ H. cbn [occurs] in H.
  apply orb_false_iff in H as [H _].
  destruct n as [|[|n]]; cbn; split; try done.
  intros [= ->]. done.
Qed.

(** The first segment of the path. *)
Lemma zidFromPath_segment pathname n seg rest :
  Js.trim (Js.or pathname "/") = slashes n +:+ seg +:+ rest →
  seg ≠ "" → occurs "/" seg = false →
  (rest = "" ∨ ∃ r, rest = String "/" r) →
  zidFromPath pathname = Js.trim seg.
Proof.
  intros Hp Hne Hs Hr. unfold zidFromPath. rewrite Hp.
  destruct (slashes_segment_not_root n seg rest Hne Hs) as [H1 H2].
  rewrite !bool_decide_eq_false_2 by done. cbn [orb negb].
  rewrite strip_leading_slashes_slashes, strip_leading_slashes_segment by done.
  by rewrite before_slash_segment.
Qed.

Lemma zidFromPath_slashes pathname n :
  Js.trim (Js.or pathname "/") = slashes n → zidFromPath pathname = "".
Proof.
  intros Hp. unfold zidFromPath. rewrite Hp.
  destruct (negb _); [|done].
  assert (strip_leading_slashes (slashes n) = "") as ->; [|done].
  clear Hp. induction n as [|n IH]; [done|]. exact IH.
Qed.

(** X20.  Which zone the URL gives.  The [zoneId] query parameter wins
    over the path.  From the path, trimmed, the first segment after the
    leading slashes is taken, up to the next slash or the end, and
    trimmed; a path of slashes only, the root path and the empty path
    among them, gives none; so the zone id of the path never holds a slash.
    With a zone id the page is in zone context, and the zone id and the
    selected AC id are both that id cut to 64 characters, not empty;
    without one the state only leaves zone context. *)
Theorem zone_of_url (param : option string) (pathname : string) (s : App) :
  let q := zidFromQuery param in
  let p := zidFromPath pathname in
  let z := read_zone param pathname s in
  occurs "/" p = false
  ∧ (q ≠ "" → zoneIdFromUrl z = Js.slice0 64 q)
  ∧ (q = "" → p ≠ "" → zoneIdFromUrl z = Js.slice0 64 p)
  ∧ (q = "" → p = "" → z = setIsZoneContext false s)
  ∧ (q ≠ "" ∨ p ≠ "" →
     isZoneContext z = true ∧ zoneIdFromUrl z ≠ ""
     ∧ selectedAcId z = zoneIdFromUrl z
     ∧ String.length (zoneIdFromUrl z) ≤ 64
     ∧ speechError z = "")
  ∧ (∀ n seg rest,
       Js.trim (Js.or pathname "/") = slashes n +:+ seg +:+ rest →
       seg ≠ "" → occurs "/" seg = false →
       rest = "" ∨ (∃ r, rest = String "/" r) →
       p = Js.trim seg)
  ∧ (∀ n, Js.trim (Js.or pathname "/") = slashes n → p = "").
Proof.
  intros q p z.
  assert (trimmed q) as Hq by apply trim_idem.
  destruct (zidFromPath_spec pathname) as [Hp Hs]. fold p in Hp, Hs.
  pose proof (zone_effect_zid q p Hq Hp) as Hz.
  assert (z = if Js.is_empty (Js.or q p) then setIsZoneContext false s
              else setSpeechError ""
                     (setSelectedAcId (Js.slice0 64 (Js.or q p))
                        (setIsZoneContext true
                           (setZoneIdFromUrl (Js.slice0 64 (Js.or q p)) s))))
    as Hzv.
  { subst z. unfold read_zone, zone_effect. fold q p. by rewrite Hz. }
  assert (∀ n seg rest,
            Js.trim (Js.or pathname "/") = slashes n +:+ seg +:+ rest →
            seg ≠ "" → occurs "/" seg = false →
            rest = "" ∨ (∃ r, rest = String "/" r) →
            p = Js.trim seg) as Hseg.
  { intros n seg rest. apply zidFromPath_segment. }
  assert (∀ n, Js.trim (Js.or pathname "/") = slashes n → p = "") as Hroot.
  { intros n. apply zidFromPath_slashes. }
  split; [done|].
  enough ((q ≠ "" → zoneIdFromUrl z = Js.slice0 64 q)
          ∧ (q = "" → p ≠ "" → zoneIdFromUrl z = Js.slice0 64 p)
          ∧ (q = "" → p = "" → z = setIsZoneContext false s)
          ∧ (q ≠ "" ∨ p ≠ "" →
             isZoneContext z = true ∧ zoneIdFromUrl z ≠ ""
             ∧ selectedAcId z = zoneIdFromUrl z
             ∧ String.length (zoneIdFromUrl z) ≤ 64
             ∧ speechError z = "")) as (H1 & H2 & H3 & H4).
  { split; [exact H1|]. split; [exact H2|]. split; [exact H3|].
    split; [exact H4|]. split; [exact Hseg|exact Hroot]. }
  clear Hseg Hroot. rewrite Hzv. unfold Js.or.
  destruct q as [|c q']; cbn [Js.is_empty].
  - destruct p as [|d p']; cbn [Js.is_empty].
    + repeat split; try done;
        match goal with H : _ ∨ _ |- _ => by destruct H end.
    + repeat split; try done. apply (slice0_length 64).
  - repeat split; try done. apply (slice0_length 64).
Qed.

Lemma zone_of_url_witness :
  zoneIdFromUrl (read_zone None "/AC-002/feedback" (initial true "sid"))
  = "AC-002"
  ∧ zoneIdFromUrl (read_zone (Some " Z9 ") "/AC-002" (initial true "sid")) = "Z9"
  ∧ isZoneContext (read_zone (Some "") "///" (initial true "sid")) = false
  ∧ isZoneContext (read_zone None "/ " (initial true "sid")) = false
  ∧ zidFromPath "//AC-002/feedback/x" = "AC-002"
  ∧ zidFromPath "///" = "".
Proof.
  destruct (zone_of_url None "/AC-002/feedback" (initial true "sid"))
    as (_ & _ & H1 & _).
  destruct (zone_of_url (Some " Z9 ") "/AC-002" (initial true "sid"))
    as (_ & H2 & _).
  destruct (zone_of_url (Some "") "///" (initial true "sid"))
    as (_ & _ & _ & H3 & _ & _ & H6).
  destruct (zone_of_url None "/ " (initial true "sid"))
    as (_ & _ & _ & H4 & _).
  destruct (zone_of_url None "//AC-002/feedback/x" (initial true "sid"))
    as (_ & _ & _ & _ & _ & H5 & _).
  split; [etrans; [apply H1; [reflexivity|vm_compute; discriminate]
                  |vm_compute; reflexivity]|].
  split; [etrans; [apply H2; vm_compute; discriminate|vm_compute; reflexivity]|].
  split; [rewrite H3 by reflexivity; reflexivity|].
  split; [rewrite H4 by reflexivity; reflexivity|].
  split.
  - apply (H5 2 "AC-002" "/feedback/x"); [reflexivity|done|reflexivity|eauto].
  - apply (H6 3). reflexivity.
Defined.

(** ** The session id *)

(** The effect when the storage can be read and written. *)
Lemma sessionId_effect_working newId fallbackId storage s :
  getItem_throws storage = false → setItem_throws storage = false →
  sessionId_effect newId fallbackId storage s
  = let existing := default "" (items storage !! "lt_feedback_session_id") in
    if Js.is_empty (Js.trim existing)
    then (set_sessionIdRef newId s,
          {| items := <["lt_feedback_session_id" := newId]> (items storage);
             getItem_throws := false; setItem_throws := false |})
    else (set_sessionIdRef (Js.trim existing) s, storage).
Proof.
  intros Hg Hs. unfold sessionId_effect. rewrite Hg, Hs. cbn zeta.
  unfold Js.and.
  destruct (default "" (items storage !! "lt_feedback_session_id")) as [|c e];
    [done|].
  cbn [Js.is_empty]. by destruct (Js.is_empty (Js.trim (String c e))).
Qed.

(** X23.  The session id is stable.  When local storage can be read and
    written and the generated id is not empty and has no white space around
    it, running the effect again, on any state and with any newly generated
    ids, gives the session id of the first run and leaves the storage as
    the first run left it; the id is not empty and is what the storage
    holds, trimmed.  When reading the storage throws, the session id is the
    fallback id and the storage is not touched. *)
Theorem session_id_is_stable
  (newId fallbackId newId' fallbackId' : string) (storage : LocalStorage)
  (s s' : App) :
  let first := sessionId_effect newId fallbackId storage s in
  (getItem_throws storage = false → setItem_throws storage = false →
   newId ≠ "" → trimmed newId →
   sessionId_effect newId' fallbackId' (snd first) s'
   = (set_sessionIdRef (sessionIdRef (fst first)) s', snd first)
   ∧ sessionIdRef (fst first) ≠ ""
   ∧ ∃ stored, items (snd first) !! "lt_feedback_session_id" = Some stored
               ∧ Js.trim stored = sessionIdRef (fst first))
  ∧ (getItem_throws storage = true →
     first = (set_sessionIdRef fallbackId s, storage)).
Proof.
  intros first. subst first. split.
  - intros Hg Hs Hne Ht. rewrite (sessionId_effect_working _ _ _ s Hg Hs).
    cbn zeta.
    destruct (Js.is_empty
                (Js.trim (default "" (items storage !! "lt_feedback_session_id"))))
      eqn:E; cbn [fst snd sessionIdRef set_sessionIdRef].
    + rewrite sessionId_effect_working by done.
      cbn zeta. cbn [items]. rewrite !lookup_insert_eq.
      change (default "" (Some newId)) with newId.
      unfold trimmed in Ht. rewrite Ht.
      apply is_empty_false in Hne. rewrite Hne.
      apply is_empty_false in Hne.
      split; [done|]. split; [done|]. by exists newId.
    + rewrite sessionId_effect_working by done. cbn zeta. rewrite E.
      split; [done|]. split; [by apply is_empty_false|].
      destruct (items storage !! "lt_feedback_session_id") as [e|] eqn:Ei;
        [|done].
      by exists e.
  - intros Hg. unfold sessionId_effect. by rewrite Hg.
Qed.

Lemma session_id_is_stable_witness :
  let storage := {| items := {["lt_feedback_session_id" := "   "]};
                    getItem_throws := false; setItem_throws := false |} in
  let first := sessionId_effect "k3x_9f2" "zz" storage (initial true "") in
  sessionIdRef (fst first) = "k3x_9f2"
  ∧ sessionIdRef (fst (sessionId_effect "other" "zz" (snd first)
                         (initial true "")))
    = "k3x_9f2".
Proof.
  cbv zeta.
  destruct (session_id_is_stable "k3x_9f2" "zz" "other" "zz"
              {| items := {["lt_feedback_session_id" := "   "]};
                 getItem_throws := false; setItem_throws := false |}
              (initial true "") (initial true "")) as [H _].
  destruct H as (H1 & _); [reflexivity|reflexivity|discriminate|reflexivity|].
  split; [vm_compute; reflexivity|].
  cbv zeta in H1. rewrite H1. vm_compute. reflexivity.
Defined.

(** ** The zone display name *)

Lemma zoneMap_values z name :
  zoneMap !! z = Some name →
  name ∈ ["Zone 1"; "Zone 2"; "Conference Room"; "AC-001"; "AC-002"; "AC-003"].
Proof.
  intros H. unfold zoneMap in H. apply elem_of_list_to_map_2 in H.
  repeat (apply elem_of_cons in H as [H|H];
          [injection H as _ ->; repeat (first [left|right; left|right])|]).
  by apply elem_of_nil in H.
Qed.

(** X24.  For every zone id that is not the name of a member inherited
    from [Object.prototype], [getZoneDisplayName] returns a string: the
    friendly name of a known zone, and an unknown zone id as it is; a
    non-empty id never gives an empty name, and the name of a name is that
    name again.  For the inherited member names it does not return a
    string. *)
Theorem zone_display_name_is_stable (zoneId : string) :
  (zoneId ∉ object_prototype_members →
   ∃ name, getZoneDisplayName zoneId = Text name
           ∧ getZoneDisplayName name = Text name
           ∧ (zoneId ≠ "" → name ≠ "")
           ∧ (zoneMap !! zoneId = None → name = zoneId))
  ∧ (zoneId ∈ object_prototype_members →
     getZoneDisplayName zoneId = Inherited zoneId).
Proof.
  split.
  - intros Hn. unfold getZoneDisplayName at 1.
    destruct zoneId as [|c z]; cbn [Js.is_empty].
    { exists "". repeat split; done. }
    destruct (zoneMap !! String c z) as [name|] eqn:E.
    + apply zoneMap_values in E.
      assert (name ≠ "" ∧ getZoneDisplayName name = Text name) as [Hne Hid].
      { repeat (apply elem_of_cons in E as [->|E]; [by vm_compute|]).
        by apply elem_of_nil in E. }
      exists name. unfold Js.or. destruct name; [done|]. cbn [Js.is_empty].
      repeat split; done.
    + rewrite decide_False by done. exists (String c z).
      split; [done|]. split; [|done].
      unfold getZoneDisplayName. cbn [Js.is_empty]. rewrite E.
      by rewrite decide_False.
  - intros Hin. unfold object_prototype_members in Hin.
    repeat (apply elem_of_cons in Hin as [->|Hin]; [by vm_compute|]).
    by apply elem_of_nil in Hin.
Qed.

Lemma zone_display_name_is_stable_witness :
  getZoneDisplayName "3" = Text "Conference Room"
  ∧ getZoneDisplayName "Conference Room" = Text "Conference Room"
  ∧ getZoneDisplayName "Lobby" = Text "Lobby"
  ∧ getZoneDisplayName "toString" = Inherited "toString".
Proof.
  destruct (zone_display_name_is_stable "3") as [H1 _].
  destruct (zone_display_name_is_stable "Lobby") as [H2 _].
  destruct (zone_display_name_is_stable "toString") as [_ H3].
  assert (∀ z : string,
            bool_decide (z ∈ object_prototype_members) = false →
            z ∉ object_prototype_members) as Hnot.
  { intros z Hz Hin. apply bool_decide_eq_false in Hz. done. }
  destruct H1 as (n1 & E1 & I1 & _); [by apply Hnot; vm_compute|].
  destruct H2 as (n2 & E2 & _ & _ & U2); [by apply Hnot; vm_compute|].
  assert (n1 = "Conference Room") as ->.
  { assert (getZoneDisplayName "3" = Text "Conference Room") as E by reflexivity.
    congruence. }
  split; [exact E1|]. split; [exact I1|]. split.
  - rewrite E2, U2; reflexivity.
  - apply H3. apply (bool_decide_unpack _). vm_compute. exact I.
Defined.

(** ** What stop-and-send sends *)

Lemma textToSend_choice s :
  textToSend s
  = if Js.is_empty (Js.trim (finalTranscriptRef s))
    then Js.trim (inputValueRef s)
    else Js.trim (finalTranscriptRef s).
Proof.
  unfold textToSend. rewrite or_empty_r. unfold Js.or, Js.and.
  destruct (finalTranscriptRef s) as [|c ft]; cbn [Js.is_empty].
  - by destruct (inputValueRef s).
  - destruct (Js.is_empty (Js.trim (String c ft))); [|done].
    by destruct (inputValueRef s).
Qed.

(** X10.  A click on the microphone (or on Send in the overlay) while
    listening asks the stream to stop, and the stream end that follows
    hands over the final text, trimmed, when it is not blank, and otherwise
    the text shown in the input box, trimmed, when that is not blank, so a
    dictation that only ever produced interim text is sent too; when both
    are blank nothing is handed over.  In every case the session is idle
    afterwards with the final text and the input box empty. *)
Theorem stop_and_send_hands_over (unsupported : string) (o : StartOutcome)
  (s : App) :
  is_Some (recognitionRef s) → isListening s = true →
  let final := Js.trim (finalTranscriptRef s) in
  let shown := Js.trim (inputValueRef s) in
  let r := run s [ClickMic unsupported o; OnEnd] in
  snd r
  = RecognitionStop ::
      (if Js.is_empty final
       then if Js.is_empty shown then [] else [SetTimeoutSend shown]
       else [SetTimeoutSend final])
  ∧ isListening (fst r) = false ∧ shouldSendOnStopRef (fst r) = false
  ∧ finalTranscriptRef (fst r) = "" ∧ inputValue (fst r) = ""
  ∧ inputValueRef (fst r) = "".
Proof.
  intros [rec Hr] Hl final shown r. subst r. cbn [run step].
  unfold handleVoiceInput. rewrite Hr, Hl.
  set (s1 := set_shouldSendOnStopRef true s).
  assert (shouldSendOnStopRef s1 = true) as Hf by done.
  assert (textToSend s1 = if Js.is_empty final then shown else final) as Ht.
  { rewrite textToSend_choice. done. }
  destruct (stream_end_outcome s1) as (H1 & H2 & _ & _ & H3 & _).
  destruct (H3 Hf) as (H4 & H5 & H6).
  assert (snd (onend s1)
          = if Js.is_empty (textToSend s1) then []
            else [SetTimeoutSend (textToSend s1)]) as He.
  { unfold onend, with_recognition, clear_transcripts, textToSend.
    subst s1. destruct s as [ms iv il ld se sa zu zc rr ft sf ir sr sid].
    cbn in *. subst. cbn.
    destruct (Js.or (Js.or _ _) "") eqn:E; cbn; done. }
  destruct (onend s1) as [s2 e2]. cbn [fst snd] in *. subst e2.
  rewrite app_nil_r, Ht. split; [|done].
  cbn [app]. f_equal. destruct (Js.is_empty final) eqn:E; [done|]. by rewrite E.
Qed.

Lemma stop_and_send_hands_over_witness :
  let s := fst (run listening [OnResult [interim_segment " too cold "]]) in
  is_Some (recognitionRef s) ∧ isListening s = true
  ∧ finalTranscriptRef s = ""
  ∧ snd (run s [ClickMic "" Started; OnEnd])
    = [RecognitionStop; SetTimeoutSend "too cold"].
Proof.
  cbv zeta.
  set (s := fst (run listening [OnResult [interim_segment " too cold "]])).
  assert (is_Some (recognitionRef s)) as Hr by (vm_compute; eauto).
  assert (isListening s = true) as Hl by reflexivity.
  split; [exact Hr|]. split; [exact Hl|]. split; [reflexivity|].
  etrans; [exact (proj1 (stop_and_send_hands_over "" Started s Hr Hl))|].
  vm_compute. reflexivity.
Defined.

(** ** The first revision of [onresult] *)

Lemma starts_with_refl a : starts_with a a = true.
Proof.
  induction a as [|x a IH]; [done|]. cbn. by rewrite Ascii.eqb_refl, IH.
Qed.

Lemma starts_with_trans a b c :
  starts_with a b = true → starts_with b c = true → starts_with a c = true.
Proof.
  revert b c. induction a as [|x a IH]; intros [|y b] [|z c]; cbn; try done.
  intros [Hxy Hab]%andb_true_iff [Hyz Hbc]%andb_true_iff.
  apply Ascii.eqb_eq in Hxy, Hyz. subst. rewrite Ascii.eqb_refl. cbn.
  by eapply IH.
Qed.

Lemma starts_with_empty a : starts_with a "" = true → a = "".
Proof. by destruct a. Qed.

Lemma trimEnd_append_starts g x :
  starts_with (Js.trimEnd g) (Js.trimEnd (g +:+ x)) = true.
Proof.
  induction g as [|c g IH]; [done|].
  change (String c g +:+ x) with (String c (g +:+ x)). cbn [Js.trimEnd].
  destruct (Js.is_ws c && Js.is_empty (Js.trimEnd g)) eqn:E1; [done|].
  destruct (Js.is_ws c && Js.is_empty (Js.trimEnd (g +:+ x))) eqn:E2.
  - apply andb_true_iff in E2 as [Hc He]. apply is_empty_true in He.
    rewrite He in IH. apply starts_with_empty in IH.
    by rewrite Hc, IH in E1.
  - cbn. by rewrite Ascii.eqb_refl, IH.
Qed.

Lemma trim_append_starts f x :
  starts_with (Js.trim f) (Js.trim (f +:+ x)) = true.
Proof.
  unfold Js.trim. induction f as [|c f IH]; [done|].
  change (String c f +:+ x) with (String c (f +:+ x)). cbn [Js.trimStart].
  destruct (Js.is_ws c); [exact IH|].
  change (String c (f +:+ x)) with (String c f +:+ x).
  apply trimEnd_append_starts.
Qed.

Lemma onresult_first_loop_keeps results : ∀ v,
  trimmed (finalTranscript_first v) →
  trimmed (finalTranscript_first (foldl onresult_first_body v results))
  ∧ starts_with (finalTranscript_first v)
      (finalTranscript_first (foldl onresult_first_body v results)) = true.
Proof.
  induction results as [|r rest IH]; intros v Ht.
  - split; [done|]. apply starts_with_refl.
  - cbn [foldl]. unfold onresult_first_body at 2 4.
    destruct (isFinal r).
    + destruct (IH {| finalTranscript_first :=
                        Js.trim (finalTranscript_first v +:+ " "
                                   +:+ Js.or (default "" (transcript r)) "");
                      interimTranscript := interimTranscript v |})
        as [H1 H2]; [apply trim_idem|].
      split; [done|]. eapply starts_with_trans; [|exact H2].
      cbn [finalTranscript_first]. unfold trimmed in Ht. rewrite <- Ht at 1.
      apply trim_append_starts.
    + by apply (IH {| finalTranscript_first := finalTranscript_first v;
                      interimTranscript :=
                        interimTranscript v
                          +:+ Js.or (default "" (transcript r)) "" |}).
Qed.

(** X25.  The first revision of [onresult] never loses final text: when
    the final text it finds has no white space around it (as the empty text
    of a fresh session has), the final text it leaves has none either and
    starts with the text it found, whatever results are delivered and from
    whatever index. *)
Theorem first_revision_keeps_final_text
  (resultIndex : nat) (results : list SpeechRecognitionResult) (s : App) :
  trimmed (finalTranscriptRef s) →
  trimmed (finalTranscriptRef (onresult_first resultIndex results s))
  ∧ starts_with (finalTranscriptRef s)
      (finalTranscriptRef (onresult_first resultIndex results s)) = true.
Proof.
  intros Ht.
  assert (finalTranscriptRef (onresult_first resultIndex results s)
          = finalTranscript_first
              (foldl onresult_first_body
                 {| finalTranscript_first := finalTranscriptRef s;
                    interimTranscript := "" |} (drop resultIndex results)))
    as ->.
  { unfold onresult_first. by destruct (0 <? String.length _)%nat. }
  by apply (onresult_first_loop_keeps (drop resultIndex results)
              {| finalTranscript_first := finalTranscriptRef s;
                 interimTranscript := "" |}).
Qed.

Lemma first_revision_keeps_final_text_witness :
  let s := onresult_first 0 [final_segment "turn it up"] listening in
  trimmed (finalTranscriptRef s)
  ∧ finalTranscriptRef s = "turn it up"
  ∧ starts_with "turn it up"
      (finalTranscriptRef
         (onresult_first 1 [final_segment "turn it up"; final_segment "please"]
            s)) = true.
Proof.
  cbv zeta.
  assert (trimmed (finalTranscriptRef
            (onresult_first 0 [final_segment "turn it up"] listening))) as Ht
    by reflexivity.
  split; [exact Ht|]. split; [reflexivity|].
  exact (proj2 (first_revision_keeps_final_text 1
                  [final_segment "turn it up"; final_segment "please"] _ Ht)).
Defined.

(** A string that [trimEnd] leaves alone stays so behind any prefix. *)
Lemma trimEnd_append_fixed a y :
  Js.trimEnd y = y → y ≠ "" → Js.trimEnd (a +:+ y) = a +:+ y.
Proof.
  intros Hy Hne. induction a as [|c a IH]; [done|].
  change (String c a +:+ y) with (String c (a +:+ y)). cbn [Js.trimEnd].
  rewrite IH. destruct (a +:+ y) eqn:E; [|by rewrite andb_false_r].
  destruct a; [done|discriminate].
Qed.

Lemma trimmed_trimEnd t : trimmed t → Js.trimEnd t = t.
Proof. unfold trimmed, Js.trim. intros H. rewrite <- H at 1. by rewrite trimEnd_idem. Qed.

(** Two trimmed non-empty texts with a space between them are a trimmed
    text. *)
Lemma trimmed_append a b :
  trimmed a → a ≠ "" → trimmed b → b ≠ "" → trimmed (a +:+ " " +:+ b).
Proof.
  intros Ha Hna Hb Hnb. unfold trimmed, Js.trim.
  destruct (trim_head a) as [E|(c & u & E & Hc)]; rewrite Ha in E; [done|].
  subst a. change (String c u +:+ " " +:+ b) with (String c (u +:+ " " +:+ b)).
  cbn [Js.trimStart]. rewrite Hc.
  change (String c (u +:+ " " +:+ b)) with (String c u +:+ (" " +:+ b)).
  apply trimEnd_append_fixed; [|done].
  apply (trimEnd_append_fixed " " b); [by apply trimmed_trimEnd|done].
Qed.

(** X26.  The first revision repeats what is delivered again: a final
    segment with text delivered twice from index 0 (a browser that resets
    its result index) is in the final text twice, where [onresult] with the
    deduplication set has it once. *)
Theorem first_revision_repeats_redelivered (t : string) (s : App) :
  trimmed t → t ≠ "" → finalTranscriptRef s = "" →
  finalTranscriptRef
    (onresult_first 0 [final_segment t] (onresult_first 0 [final_segment t] s))
  = t +:+ " " +:+ t
  ∧ (is_Some (recognitionRef s) → seenFinalTexts s = ∅ →
     finalTranscriptRef
       (onresult [final_segment t] (onresult [final_segment t] s)) = t).
Proof.
  intros Ht Hne Hf.
  assert (∀ s0, finalTranscriptRef (onresult_first 0 [final_segment t] s0)
                = Js.trim (finalTranscriptRef s0 +:+ " " +:+ t)) as Hone.
  { intros s0. unfold onresult_first. cbn [drop foldl].
    unfold onresult_first_body, final_segment.
    cbn [isFinal transcript default finalTranscript_first].
    rewrite or_empty_r. by destruct (0 <? String.length _)%nat. }
  split.
  - rewrite !Hone, Hf.
    assert (Js.trim ("" +:+ " " +:+ t) = t) as ->.
    { change ("" +:+ " " +:+ t) with (String " " t).
      unfold Js.trim. cbn [Js.trimStart]. change (Js.is_ws " ") with true.
      cbn iota. exact Ht. }
    by apply trimmed_append.
  - intros Hr Hs. rewrite onresult_twice_finalText.
    destruct (first_final_segment t s Hr Hs) as [H _]; [by rewrite Ht|].
    by rewrite H.
Qed.

Lemma first_revision_repeats_redelivered_witness :
  trimmed "turn it up" ∧ finalTranscriptRef listening = ""
  ∧ finalTranscriptRef
      (onresult_first 0 [final_segment "turn it up"]
         (onresult_first 0 [final_segment "turn it up"] listening))
    = "turn it up turn it up".
Proof.
  assert (trimmed "turn it up") as Ht by reflexivity.
  assert (finalTranscriptRef listening = "") as Hf by reflexivity.
  split; [exact Ht|]. split; [exact Hf|].
  exact (proj1 (first_revision_repeats_redelivered "turn it up" listening
                  Ht ltac:(discriminate) Hf)).
Defined.

(** ** Ends that were not asked for *)

(** X11.  Text in the input box survives an end of the stream that the
    user did not ask for.  When the input box and its ref agree and hold
    more than white space, a stream end with the send flag down keeps the
    input box and the final text and sends nothing; and a stream error
    followed by the stream end keeps them too, sends nothing and shows a
    message, even if stop-and-send was pending when the error came. *)
Theorem dictated_text_survives_unrequested_end
  (e : option string) (s : App) :
  mirrored s → Js.trim (inputValue s) ≠ "" →
  (shouldSendOnStopRef s = false →
   inputValue (fst (onend s)) = inputValue s
   ∧ finalTranscriptRef (fst (onend s)) = finalTranscriptRef s
   ∧ isListening (fst (onend s)) = false
   ∧ snd (onend s) = [])
  ∧ (let failed := fst (onerror e s) in
     inputValue (fst (onend failed)) = inputValue s
     ∧ finalTranscriptRef (fst (onend failed)) = finalTranscriptRef s
     ∧ isListening (fst (onend failed)) = false
     ∧ speechError (fst (onend failed)) ≠ ""
     ∧ dispatches (snd (onerror e s) ++ snd (onend failed)) = []).
Proof.
  unfold mirrored. intros Hm Ht. split.
  - intros Hf. rewrite <- Hm in Ht.
    destruct (stream_end_outcome s) as (H1 & _ & _ & _ & _ & H2 & _).
    destruct (H2 Hf Ht) as (? & ? & ? & ?). done.
  - set (failed := fst (onerror e s)).
    assert (inputValue failed = inputValue s
            ∧ inputValueRef failed = inputValueRef s
            ∧ finalTranscriptRef failed = finalTranscriptRef s
            ∧ shouldSendOnStopRef failed = false
            ∧ speechError failed ≠ ""
            ∧ dispatches (snd (onerror e s)) = []) as (F1 & F2 & F3 & F4 & F5 & F6).
    { subst failed. unfold onerror, with_recognition.
      destruct s as [ms iv il ld se sa zu zc rr ft sf ir sr sid]. cbn.
      destruct rr; repeat (case_decide; cbn); repeat split; try done;
        unfold Js.or; by destruct (default "" e). }
    destruct (stream_end_outcome failed) as (H1 & _ & _ & _ & _ & H2 & _).
    destruct H2 as (G1 & G2 & G3 & G4); [done|by rewrite F2, Hm|].
    assert (speechError (fst (onend failed)) = speechError failed) as Hse.
    { rewrite onend_state. cbn zeta. unfold with_recognition, clear_transcripts.
      destruct failed; cbn. by repeat (case_match; cbn). }
    rewrite dispatches_app, F6, G4.
    repeat split; try done; congruence.
Qed.

Lemma dictated_text_survives_unrequested_end_witness :
  let s := fst (run listening [OnResult [final_segment "too cold"];
                               ClickMic "" Started]) in
  mirrored s ∧ Js.trim (inputValue s) ≠ "" ∧ shouldSendOnStopRef s = true
  ∧ inputValue (fst (onend (fst (onerror (Some "network") s)))) = "too cold"
  ∧ dispatches (snd (onend s)) = ["too cold"].
Proof.
  cbv zeta.
  set (s := fst (run listening [OnResult [final_segment "too cold"];
                                ClickMic "" Started])).
  assert (mirrored s) as Hm by reflexivity.
  assert (Js.trim (inputValue s) ≠ "") as Ht by (vm_compute; discriminate).
  split; [exact Hm|]. split; [exact Ht|]. split; [reflexivity|].
  split; [|vm_compute; reflexivity].
  destruct (dictated_text_survives_unrequested_end (Some "network") s Hm Ht)
    as [_ (H & _)].
  rewrite H. vm_compute. reflexivity.
Defined.

(** While the session is listening no handler ends it but the stream's own
    end and error events, and none calls [start()]. *)
Lemma step_while_listening s i :
  isListening s = true →
  match i with OnEnd | OnError _ => False | _ => True end →
  isListening (fst (step s i)) = true
  ∧ RecognitionStart ∉ snd (step s i).
Proof.
  intros Hl Hi.
  assert (∀ A (x : A), x ∉ @nil A) as Hnil by (intros; apply not_elem_of_nil).
  destruct i; cbn [step fst snd]; try done; try (split; [|apply Hnil]).
  - unfold handleVoiceInput. rewrite Hl.
    destruct (recognitionRef s); cbn [fst snd]; (split; [done|]);
      [|apply Hnil].
    intros H%list_elem_of_singleton. discriminate.
  - unfold handleCancelListening, with_recognition, clear_transcripts.
    destruct s; cbn in *. destruct recognitionRef0; cbn; (split; [done|]);
      [|apply Hnil].
    intros H%list_elem_of_singleton. discriminate.
  - destruct (handleSendMessage_cases None s)
      as [[-> _]|[[-> _]|(b & -> & _)]]; cbn [fst snd]; (split; [done|]);
      try apply Hnil.
    intros H%list_elem_of_singleton. discriminate.
  - unfold onstart, with_recognition. destruct s; cbn in *.
    by repeat (case_match; cbn).
  - destruct (recognitionRef s) as [r|] eqn:Er.
    + by rewrite (onresult_unfold _ _ _ Er).
    + by rewrite onresult_no_recognition.
  - destruct (handleSendMessage_cases (Some textToSend0) s)
      as [[-> _]|[[-> _]|(b & -> & _)]]; cbn [fst snd]; (split; [done|]);
      try apply Hnil.
    intros H%list_elem_of_singleton. discriminate.
  - unfold handleSendMessage_settled. by destruct o as [? [w|]|m].
  - unfold handleVoiceInput_permission_settled, with_recognition.
    destruct s; cbn in *. by repeat (case_match; cbn).
  - unfold handleVoiceInput_supported, handleVoiceInput. rewrite Hl.
    destruct (recognitionRef s); cbn [fst snd]; (split; [done|]);
      intros H%list_elem_of_singleton; discriminate.
  - unfold handleVoiceInput_supported_settled. by destruct granted.
Qed.

(** X13.  One stream per session: while the session is listening, until
    the stream reports its end or an error, no input makes the handlers call
    [start()] again, and the session stays listening; a click on the
    microphone only asks the stream to stop. *)
Theorem no_second_start_while_listening (s : App) (inputs : list Input) :
  isListening s = true →
  Forall (fun i => match i with OnEnd | OnError _ => False | _ => True end)
    inputs →
  isListening (fst (run s inputs)) = true
  ∧ RecognitionStart ∉ snd (run s inputs).
Proof.
  intros Hl Hin. revert s Hl.
  induction Hin as [|i rest Hi _ IH]; intros s Hl.
  { split; [done|]. apply not_elem_of_nil. }
  cbn [run]. destruct (step_while_listening s i Hl Hi) as [H1 H2].
  destruct (step s i) as [s1 e1]. cbn [fst snd] in *.
  destruct (IH s1 H1) as [H3 H4].
  destruct (run s1 rest) as [s2 e2]. cbn [fst snd] in *.
  split; [done|]. by intros [?|?]%elem_of_app.
Qed.

Lemma no_second_start_while_listening_witness :
  let inputs := [ClickMic "" Started; ClickMic "" Started; ClickCancel;
                 OnResult [final_segment "too cold"]] in
  isListening listening = true
  ∧ snd (run listening inputs)
    = [RecognitionStop; RecognitionStop; RecognitionStop]
  ∧ RecognitionStart ∉ snd (run listening inputs).
Proof.
  cbv zeta.
  assert (isListening listening = true) as Hl by reflexivity.
  split; [exact Hl|]. split; [vm_compute; reflexivity|].
  apply (no_second_start_while_listening listening _ Hl).
  repeat constructor.
Defined.

(** ** Failed requests in the history *)

Lemma trim_nonempty_head c t : Js.is_ws c = false → Js.trim (String c t) ≠ "".
Proof. intros Hc. unfold Js.trim. cbn [Js.trimStart]. rewrite Hc. cbn [Js.trimEnd]. by rewrite Hc. Qed.

(** X17.  A failed request stays in the conversation and is sent along
    with the next request as a turn of the user: after a request failed with
    message [m], the history of the next request ends with the message of
    the failed request, the entry "Error: m" under the role "user", and the
    new message, each cut to 500 characters. *)
Theorem failed_request_is_sent_as_user_turn
  (o1 o2 : option string) (m : string) (s : App)
  (body1 body2 : FeedbackRequest) :
  Fetch body1 ∈ snd (handleSendMessage o1 s) →
  let failed := handleSendMessage_settled (Failed m)
                  (fst (handleSendMessage o1 s)) in
  Fetch body2 ∈ snd (handleSendMessage o2 failed) →
  isLoadingRef failed = false
  ∧ ∃ earlier,
      history body2
      = earlier
        ++ [{| role := "user"; entry_text := Js.slice0 500 (message body1) |};
            {| role := "user"; entry_text := Js.slice0 500 ("Error: " +:+ m) |};
            {| role := "user"; entry_text := Js.slice0 500 (message body2) |}].
Proof.
  intros H1 failed H2.
  destruct (handleSendMessage_sent o1 s body1 H1)
    as (Hm1 & Hne1 & Ht1 & Hms & _).
  assert (messagesRef failed
          = messagesRef s
            ++ [{| type := user; text := Some (message body1) |};
                {| type := error; text := Some ("Error: " +:+ m) |}]) as Hmf.
  { subst failed. unfold handleSendMessage_settled.
    cbn [messagesRef set_isLoadingRef set_messagesRef]. rewrite Hms.
    by rewrite <- app_assoc. }
  split; [done|].
  destruct (handleSendMessage_fetch o2 failed body2 H2) as (Hne2 & _ & _ & ->).
  cbn [history message]. rewrite Hmf.
  assert (trimmed (message_of o2 failed)) as Ht2 by apply trim_idem.
  set (u1 := {| type := user; text := Some (message body1) |}).
  set (er := {| type := error; text := Some ("Error: " +:+ m) |}).
  set (u2 := {| type := user; text := Some (message_of o2 failed) |}).
  assert (has_text u1 = true ∧ has_text er = true ∧ has_text u2 = true)
    as (T1 & T2 & T3).
  { unfold has_text. cbn [text u1 er u2]. unfold trimmed in Ht1, Ht2.
    rewrite Ht1, Ht2. split; [by destruct (message body1)|].
    split; [|by destruct (message_of o2 failed)].
    pose proof (trim_nonempty_head "E" ("rror: " +:+ m) eq_refl) as Hn.
    change (String "E" ("rror: " +:+ m)) with ("Error: " +:+ m) in Hn.
    by destruct (Js.trim ("Error: " +:+ m)). }
  unfold historyWindow, Js.slice_last.
  rewrite <- app_assoc. cbn [app]. rewrite length_app. cbn [length].
  rewrite drop_app_le by lia. rewrite filter_app, fmap_app.
  rewrite !filter_cons_True, filter_nil by done.
  eexists. reflexivity.
Qed.

Lemma failed_request_is_sent_as_user_turn_witness :
  let s := mount true "sid" "Zone 7" "" in
  let failed := handleSendMessage_settled (Failed "Failed to fetch")
                  (fst (handleSendMessage (Some "too cold") s)) in
  ∃ body1 body2,
    Fetch body1 ∈ snd (handleSendMessage (Some "too cold") s)
    ∧ Fetch body2 ∈ snd (handleSendMessage (Some "still cold") failed)
    ∧ history body2
      = [{| role := "user"; entry_text := "too cold" |};
         {| role := "user"; entry_text := "Error: Failed to fetch" |};
         {| role := "user"; entry_text := "still cold" |}].
Proof.
  intros s failed.
  assert (∃ body1, Fetch body1 ∈ snd (handleSendMessage (Some "too cold") s)
                   ∧ message body1 = "too cold") as (body1 & H1 & M1).
  { eexists. split; [vm_compute; apply list_elem_of_singleton; reflexivity|].
    reflexivity. }
  assert (∃ body2, Fetch body2 ∈ snd (handleSendMessage (Some "still cold") failed)
                   ∧ message body2 = "still cold"
                   ∧ length (history body2) = 3)
    as (body2 & H2 & M2 & L2).
  { eexists. split; [vm_compute; apply list_elem_of_singleton; reflexivity|].
    split; reflexivity. }
  exists body1, body2. split; [exact H1|]. split; [exact H2|].
  destruct (failed_request_is_sent_as_user_turn _ _ _ _ _ _ H1 H2)
    as (_ & earlier & E).
  rewrite E in L2 |- *. rewrite length_app in L2. cbn [length] in L2.
  destruct earlier; [|cbn in L2; lia].
  rewrite M1, M2. reflexivity.
Defined.

(** ** The history window

    [slice(0, n)] is the substring of length [n] from the start. *)
Lemma slice0_substring n : ∀ t, Js.slice0 n t = String.substring 0 n t.
Proof.
  induction n as [|n IH]; intros [|c t]; cbn; try done. by rewrite IH.
Qed.

(** The last ten of the conversation with the message appended are the
    last nine of the conversation and the message. *)
Lemma slice_last_snoc {A} (l : list A) (x : A) :
  Js.slice_last 10 (l ++ [x]) = drop (length l - 9) l ++ [x].
Proof.
  unfold Js.slice_last. rewrite length_app. cbn [length].
  replace (length l + 1 - 10) with (length l - 9) by lia.
  apply drop_app_le. lia.
Qed.

(** The [filter] predicate of the history window in words. *)
Lemma has_text_spec m :
  has_text m = true ↔ is_Some (text m) ∧ Js.trim (default "" (text m)) ≠ "".
Proof.
  unfold has_text. destruct (text m) as [t|]; cbn [default from_option id].
  - destruct (Js.trim t) as [|c u]; cbn [String.length Nat.ltb Nat.leb].
    + split; [done|]. by intros [_ ?].
    + split; [|done]. intros _. split; [eauto|done].
  - split; [done|]. by intros [[? ?] _].
Qed.

(** C9, the claim as stated fails: the history is cut from the conversation
    with the message being sent already appended.  The first request of a
    page has the message itself as its history, though there is no prior
    turn; and after ten turns the history holds the message and the nine
    turns before it, so the tenth most recent prior turn is left out. *)
Lemma history_holds_message_being_sent :
  let page := mount true "sid" "Zone 7" "" in
  let exchange q a :=
    [TypeText q; ClickSend; FetchSettled (Replied (Some a) None)] in
  let inputs :=
    exchange "1" "2" ++ exchange "3" "4" ++ exchange "5" "6"
      ++ exchange "7" "8" ++ exchange "9" "10"
      ++ [TypeText "too cold"; ClickSend] in
  page_allows page [] inputs
  ∧ head (history <$> fetches (snd (run page inputs)))
    = Some [{| role := "user"; entry_text := "1" |}]
  ∧ last (history <$> fetches (snd (run page inputs)))
    = Some [{| role := "assistant"; entry_text := "2" |};
            {| role := "user"; entry_text := "3" |};
            {| role := "assistant"; entry_text := "4" |};
            {| role := "user"; entry_text := "5" |};
            {| role := "assistant"; entry_text := "6" |};
            {| role := "user"; entry_text := "7" |};
            {| role := "assistant"; entry_text := "8" |};
            {| role := "user"; entry_text := "9" |};
            {| role := "assistant"; entry_text := "10" |};
            {| role := "user"; entry_text := "too cold" |}].
Proof.
  cbv zeta. split; [|split; vm_compute; reflexivity].
  vm_compute. repeat split.
Qed.

(** C9, amended.  The history of a dispatched request is, in order, the
    turns with non-blank string text among the last nine of the
    conversation, followed by the message being sent.  The role is
    "assistant" for the turns of the assistant and "user" for all others,
    error entries among them, and every text is cut to its first 500
    characters.  So the history has between one and ten entries, each with
    1 to 500 characters. *)
Theorem history_is_message_and_nine_prior
  (o : option string) (s : App) (body : FeedbackRequest) :
  Fetch body ∈ snd (handleSendMessage o s) →
  let prior := messagesRef s in
  let recent := drop (length prior - 9) prior in
  let kept :=
    filter (fun m => is_Some (text m) ∧ Js.trim (default "" (text m)) ≠ "")
      recent in
  history body
  = ((fun m => {| role := match type m with
                          | assistant => "assistant"
                          | _ => "user"
                          end;
                  entry_text := String.substring 0 500 (default "" (text m)) |})
       <$> kept)
    ++ [{| role := "user";
           entry_text := String.substring 0 500 (message body) |}]
  ∧ message body ≠ ""
  ∧ length recent = min 9 (length prior)
  ∧ 1 ≤ length (history body) ≤ 10
  ∧ Forall (fun e => 1 ≤ String.length (entry_text e) ≤ 500
                     ∧ (role e = "user" ∨ role e = "assistant"))
      (history body).
Proof.
  intros H prior recent kept. subst prior.
  apply handleSendMessage_fetch in H as (Hm & _ & _ & ->).
  cbn [message history].
  assert (historyWindow
            (messagesRef s ++ [{| type := user; text := Some (message_of o s) |}])
          = (to_entry <$> filter (fun m => has_text m = true) recent)
            ++ [{| role := "user";
                   entry_text := Js.slice0 500 (message_of o s) |}]) as Hw.
  { unfold historyWindow. rewrite slice_last_snoc. fold recent.
    rewrite filter_app, fmap_app. f_equal.
    rewrite filter_cons_True; [done|].
    apply has_text_spec. cbn [text default from_option id]. split; [eauto|].
    unfold message_of. by rewrite trim_idem. }
  assert (filter (fun m => has_text m = true) recent = kept) as Hk.
  { subst kept. apply list_filter_iff. intros m. apply has_text_spec. }
  assert (history_eq :
    historyWindow
      (messagesRef s ++ [{| type := user; text := Some (message_of o s) |}])
    = ((fun m => {| role := match type m with
                          | assistant => "assistant"
                          | _ => "user"
                          end;
                  entry_text := String.substring 0 500 (default "" (text m)) |})
       <$> kept)
    ++ [{| role := "user";
           entry_text := String.substring 0 500 (message_of o s) |}]).
  { rewrite Hw, Hk, slice0_substring. f_equal.
    apply list_fmap_ext. intros i m _. unfold to_entry.
    by rewrite slice0_substring. }
  assert (length recent = min 9 (length (messagesRef s))) as Hlen.
  { subst recent. rewrite length_drop. lia. }
  assert (length kept ≤ length recent) as Hkl.
  { subst kept. apply length_filter. }
  split; [exact history_eq|]. split; [done|]. split; [done|].
  rewrite history_eq. split.
  { rewrite length_app, length_fmap. cbn [length]. lia. }
  apply Forall_app. split.
  - apply Forall_fmap, Forall_forall. intros m Hin.
    unfold compose. cbn [entry_text role].
    subst kept. apply list_elem_of_filter in Hin as [[[t Ht] Hne] _].
    rewrite Ht in *. cbn [default from_option id] in *.
    rewrite <- slice0_substring. split; [split|].
    + assert (t ≠ "") as Hn by (intros ->; done).
      pose proof (slice0_nonempty 499 _ Hn) as Hs.
      destruct (Js.slice0 500 t); [done|]. cbn. lia.
    + apply slice0_length.
    + destruct (type m); auto.
  - apply Forall_singleton. cbn [entry_text role].
    rewrite <- slice0_substring. split; [split|auto].
    + pose proof (slice0_nonempty 499 _ Hm) as Hs.
      destruct (Js.slice0 500 _); [done|]. cbn. lia.
    + apply slice0_length.
Qed.

Lemma history_is_message_and_nine_prior_witness :
  let page := mount true "sid" "Zone 7" "" in
  let s := fst (run page [TypeText "1"; ClickSend; FetchSettled (Failed "offline");
                          TypeText " too cold "]) in
  ∃ body,
    Fetch body ∈ snd (step s ClickSend)
    ∧ history body
      = [{| role := "user"; entry_text := "1" |};
         {| role := "user"; entry_text := "Error: offline" |};
         {| role := "user"; entry_text := "too cold" |}].
Proof.
  cbv zeta.
  set (s := fst (run (mount true "sid" "Zone 7" "")
                   [TypeText "1"; ClickSend; FetchSettled (Failed "offline");
                    TypeText " too cold "])).
  assert (∃ body, Fetch body ∈ snd (handleSendMessage None s)
                  ∧ message body = "too cold") as (body & Hb & Hm).
  { eexists. split; [vm_compute; apply list_elem_of_singleton; reflexivity|].
    reflexivity. }
  exists body. split; [exact Hb|].
  destruct (history_is_message_and_nine_prior None s body Hb) as (H & _).
  rewrite H, Hm. vm_compute. reflexivity.
Defined.

(** ** Cancelling *)








(** ** The zone id of a request *)



